(** * Book.ts: the lazy-load and cache-invalidation protocol of [Book]

    A shallow embedding of [src/Book.ts].  A [Book] object is a record of its
    private fields; every method is a computation over the book, the remote
    backend and the log of remote calls made so far.  A JavaScript exception
    leaves the fields written before it in place, so a computation ends
    either in [Returned] or in [Thrown], both carrying the state reached.

    Modelling conventions:
    - [null] and [undefined] (always tested with [== null] in the source) are
      [None];
    - a string is the sequence of the bytes of its UTF-8 encoding;
    - what the JavaScript runtime provides ([String.prototype.trim], the
      members of [Object.prototype], the conversion of a string to a number)
      is the interface [Runtime]; every theorem holds for every runtime, and
      the examples run on [demo_runtime], which follows ECMAScript;
    - a JavaScript object used as a dictionary (the four indices built on
      [new Object()], the [properties] of a ledger) is a [gmap string _] of
      its own properties; reading it with [js_get] also finds the members it
      inherits from [Object.prototype].  An assignment under the key
      [__proto__] would replace the prototype of an index instead: the
      theorems on what a lookup finds in a fetched ledger take a ledger
      without that key ([own_keys]);
    - the services ([BookService_], [TransactionService_], ...) live in other
      files: they are the fields of [Services], functions over an abstract
      backend state [W] that either reply or fail.  A service that receives
      the book ([record], [audit]) may read it but does not write its private
      fields. *)

From Stdlib Require Import ZArith Ascii String List.
From stdpp Require Import base option list gmap strings.

Open Scope string_scope.

(** ** Payloads of the REST API (the [bkper] namespace) *)

(** Modelled from the spec: the [bkper.Account] type declaration is missing;
    an account has a stable identifier, a display name and a normalized-name
    form.  The fields are optional as in a TypeScript payload interface: the
    payload that [createAccounts] builds has no id and no normalized name,
    and its name is [row[0]], absent for an empty row. *)
Record bkper_Account := mk_bkper_Account {
  acc_id : option string;
  acc_name : option string;
  acc_normalizedName : option string;
  acc_type : option string;
  acc_groups : list (option string)
}.

(** Modelled from the spec: the [bkper.Group] type declaration is missing.
    The payload that [createGroups] builds has a name and no id. *)
Record bkper_Group := mk_bkper_Group {
  grp_id : option string;
  grp_name : string
}.

Record bkper_Transaction := mk_bkper_Transaction {
  tx_id : string;
  tx_description : string
}.

Record bkper_Query := mk_bkper_Query {
  q_id : string;
  q_query : string;
  q_title : string
}.

Record bkper_Collection := mk_bkper_Collection {
  col_id : string;
  col_name : string
}.

(** The ledger resource returned by [BookService_.loadBookWrapped]: scalar
    metadata together with the raw account and group lists. *)
Record bkper_Book := mk_bkper_Book {
  bk_name : string;
  bk_fractionDigits : Z;
  bk_ownerName : string;
  bk_permission : string;
  bk_collection : option bkper_Collection;
  bk_datePattern : string;
  bk_decimalSeparator : string;
  bk_timeZone : string;
  bk_timeZoneOffset : Z;
  bk_lastUpdateMs : string;
  bk_properties : option (gmap string string);
  bk_groups : list bkper_Group;
  bk_accounts : list bkper_Account
}.

(** ** Wrapper objects

    [Account], [Group], [Transaction] and [Collection] are classes of other
    files; only what [Book.ts] touches is kept: the wrapped payload and the
    [book] back-reference, held as the id of the owning book. *)

Record Account := mk_Account {
  acc_wrapped : bkper_Account;
  acc_book : option string
}.

Record Group := mk_Group {
  grp_wrapped : bkper_Group;
  grp_book : option string
}.

Record Transaction := mk_Transaction {
  tx_wrapped : bkper_Transaction;
  tx_book : option string
}.

Record Collection := mk_Collection {
  col_wrapped : bkper_Collection
}.

(** Modelled from the spec: the classes [Account] and [Group] are missing;
    their getters return the identifier, the display name and the
    normalized-name form of the wrapped payload. *)
Definition Account_getId (a : Account) : option string := acc_id (acc_wrapped a).
Definition Account_getNormalizedName (a : Account) : option string :=
  acc_normalizedName (acc_wrapped a).
Definition Group_getId (g : Group) : option string := grp_id (grp_wrapped g).
Definition Group_getName (g : Group) : string := grp_name (grp_wrapped g).

(** [obj[k]] turns [k] into a property key: an absent value indexes the
    property named [undefined]. *)
Definition property_key (k : option string) : string :=
  match k with Some s => s | None => "undefined" end.

(** [Utils_.wrapObjects(new Account(), payloads)]: one fresh wrapper per
    payload, not yet bound to a book. *)
Definition wrapObjects_Account (l : list bkper_Account) : list Account :=
  map (fun w => mk_Account w None) l.
Definition wrapObjects_Group (l : list bkper_Group) : list Group :=
  map (fun w => mk_Group w None) l.
Definition wrapObjects_Transaction (l : list bkper_Transaction) : list Transaction :=
  map (fun w => mk_Transaction w None) l.

(** ** The private fields of [Book] *)

Record Book := mk_Book {
  book_id : string;
  wrapped : option bkper_Book;
  accounts : option (list Account);
  groups : option (list Group);
  collection : option Collection;
  idAccountMap : option (gmap string Account);
  nameAccountMap : option (gmap string Account);
  idGroupMap : option (gmap string Group);
  nameGroupMap : option (gmap string Group);
  savedQueries : option (list bkper_Query)
}.

(** [constructor(id, wrapped?)] *)
Definition new_Book (id : string) (w : option bkper_Book) : Book :=
  mk_Book id w None None None None None None None None.

Definition set_wrapped (v : option bkper_Book) (b : Book) : Book :=
  mk_Book (book_id b) v (accounts b) (groups b) (collection b)
          (idAccountMap b) (nameAccountMap b) (idGroupMap b) (nameGroupMap b)
          (savedQueries b).

Definition set_collection (v : option Collection) (b : Book) : Book :=
  mk_Book (book_id b) (wrapped b) (accounts b) (groups b) v
          (idAccountMap b) (nameAccountMap b) (idGroupMap b) (nameGroupMap b)
          (savedQueries b).

Definition set_idAccountMap (v : option (gmap string Account)) (b : Book) : Book :=
  mk_Book (book_id b) (wrapped b) (accounts b) (groups b) (collection b)
          v (nameAccountMap b) (idGroupMap b) (nameGroupMap b)
          (savedQueries b).

Definition set_idGroupMap (v : option (gmap string Group)) (b : Book) : Book :=
  mk_Book (book_id b) (wrapped b) (accounts b) (groups b) (collection b)
          (idAccountMap b) (nameAccountMap b) v (nameGroupMap b)
          (savedQueries b).

Definition set_savedQueries (v : option (list bkper_Query)) (b : Book) : Book :=
  mk_Book (book_id b) (wrapped b) (accounts b) (groups b) (collection b)
          (idAccountMap b) (nameAccountMap b) (idGroupMap b) (nameGroupMap b)
          v.

(** The three assignments that open [configureAccounts_], and the three that
    open [configureGroups_]. *)
Definition set_account_tier (l : list Account) (im nm : gmap string Account)
    (b : Book) : Book :=
  mk_Book (book_id b) (wrapped b) (Some l) (groups b) (collection b)
          (Some im) (Some nm) (idGroupMap b) (nameGroupMap b)
          (savedQueries b).

Definition set_group_tier (l : list Group) (im nm : gmap string Group)
    (b : Book) : Book :=
  mk_Book (book_id b) (wrapped b) (accounts b) (Some l) (collection b)
          (idAccountMap b) (nameAccountMap b) (Some im) (Some nm)
          (savedQueries b).

Definition isSome {A : Type} (o : option A) : bool :=
  match o with Some _ => true | None => false end.

Definition isNull {A : Type} (o : option A) : bool := negb (isSome o).

(** ** Remote calls, exceptions and the state monad *)

Inductive RecordInput :=
| RecordText (text : string)
| RecordArray (rows : list string)
| RecordMatrix (rows : list (list string)).

Inductive RemoteCall :=
| LoadBookWrapped (bookId : string)
| Audit (bookId : string)
| CreateTransactionsBatch (bookId : string) (payloads : list bkper_Transaction)
| RecordDrafts (bookId : string) (input : RecordInput) (timeZone : string)
| GetTransaction (bookId : string) (id : string)
| CreateAccounts (bookId : string) (payloads : list bkper_Account)
| CreateAccountV2 (bookId : string) (name : string) (group description : option string)
| CreateGroups (bookId : string) (payloads : list bkper_Group)
| GetSavedQueries (bookId : string)
| GetBalances (bookId : string) (query : string).

Inductive Exn :=
| RemoteFailure (message : string)
| TypeError (message : string).

Inductive Reply (A : Type) :=
| Ok (a : A)
| Fail (e : Exn).
Arguments Ok {A} a.
Arguments Fail {A} e.

Record Services (W : Type) := mk_Services {
  BookService_loadBookWrapped : string -> W -> Reply bkper_Book * W;
  BookService_audit : Book -> W -> Reply unit * W;
  TransactionService_createTransactionsBatch :
    string -> list bkper_Transaction -> W -> Reply (list bkper_Transaction) * W;
  TransactionService_record :
    Book -> RecordInput -> string -> W -> Reply unit * W;
  TransactionService_getTransaction :
    string -> string -> W -> Reply bkper_Transaction * W;
  AccountService_createAccounts :
    string -> list bkper_Account -> W -> Reply (list bkper_Account) * W;
  AccountService_createAccountV2 :
    string -> string -> option string -> option string -> W -> Reply bkper_Account * W;
  GroupService_createGroups :
    string -> list bkper_Group -> W -> Reply (list Group) * W;
  SavedQueryService_getSavedQueries :
    string -> W -> Reply (list bkper_Query) * W;
  BalancesService_getBalances :
    string -> string -> W -> Reply string * W
}.
Arguments BookService_loadBookWrapped {W}.
Arguments BookService_audit {W}.
Arguments TransactionService_createTransactionsBatch {W}.
Arguments TransactionService_record {W}.
Arguments TransactionService_getTransaction {W}.
Arguments AccountService_createAccounts {W}.
Arguments AccountService_createAccountV2 {W}.
Arguments GroupService_createGroups {W}.
Arguments SavedQueryService_getSavedQueries {W}.
Arguments BalancesService_getBalances {W}.

(** The book, the backend, and the remote calls made so far (latest first). *)
Record State (W : Type) := mk_State {
  book : Book;
  world : W;
  trace : list RemoteCall
}.
Arguments mk_State {W}.
Arguments book {W}.
Arguments world {W}.
Arguments trace {W}.

Inductive Outcome (W A : Type) :=
| Returned (a : A) (s : State W)
| Thrown (e : Exn) (s : State W).
Arguments Returned {W A}.
Arguments Thrown {W A}.

Definition M (W A : Type) : Type := State W -> Outcome W A.

Definition ret {W A} (a : A) : M W A := fun s => Returned a s.

Definition bind {W A B} (m : M W A) (k : A -> M W B) : M W B :=
  fun s => match m s with
           | Returned a s' => k a s'
           | Thrown e s' => Thrown e s'
           end.

Definition throw {W A} (e : Exn) : M W A := fun s => Thrown e s.

Declare Scope js_scope.
Delimit Scope js_scope with js.
Notation "'let*' x := m 'in' k" := (bind m (fun x => k))
  (at level 10, x binder, m at level 100, k at level 200, only parsing) : js_scope.
Notation "'do' m 'then' k" := (bind m (fun _ => k))
  (at level 10, m at level 100, k at level 200, only parsing) : js_scope.
Open Scope js_scope.

(** Read and write [this]. *)
Definition this {W} : M W Book := fun s => Returned (book s) s.

Definition assign {W} (f : Book -> Book) : M W unit :=
  fun s => Returned tt (mk_State (f (book s)) (world s) (trace s)).

(** One call to a service: the backend moves on, the call is logged, and a
    failure is thrown to the caller. *)
Definition remote {W A} (c : RemoteCall) (f : W -> Reply A * W) : M W A :=
  fun s =>
    let s' := mk_State (book s) (snd (f (world s))) (c :: trace s) in
    match fst (f (world s)) with
    | Ok a => Returned a s'
    | Fail e => Thrown e s'
    end.

(** The state an outcome ends in, and the number of ledger fetches logged. *)
Definition final {W A} (o : Outcome W A) : State W :=
  match o with Returned _ s => s | Thrown _ s => s end.

Definition is_fetch (c : RemoteCall) : bool :=
  match c with LoadBookWrapped _ => true | _ => false end.

Definition fetches {W} (s : State W) : nat :=
  List.length (List.filter is_fetch (trace s)).

(** ** Helpers of other files *)

(** What the JavaScript runtime provides.  [trim_is_empty s] is
    [s.trim() == ""]; [inherited_member key] says that [key] names a member
    of [Object.prototype], which every plain object inherits ([toString],
    [constructor], ...); [to_number s] is [+s]. *)
Class Runtime := {
  trim_is_empty : string -> bool;
  inherited_member : string -> bool;
  js_number : Type;
  to_number : string -> js_number
}.

(** What [obj[key]] finds, when it is not [undefined]: an own property of
    the object, or the member of that name inherited from
    [Object.prototype].  An inherited member is not [null]; it is a function
    or the prototype itself, so it has neither a [getId] nor a [trim]
    method. *)
Inductive Property (A : Type) :=
| Own (a : A)
| Inherited (key : string).
Arguments Own {A} a.
Arguments Inherited {A} key.

(** [obj[key]] on a plain object whose own properties are [obj]. *)
Definition js_get `{Runtime} {A : Type} (obj : gmap string A) (key : string)
    : option (Property A) :=
  match obj !! key with
  | Some a => Some (Own a)
  | None => if inherited_member key then Some (Inherited key) else None
  end.

(** The ECMAScript white space and line terminator code points, which
    [String.prototype.trim] strips, read off the UTF-8 bytes of a string:
    U+0009 to U+000D, U+0020, U+00A0, U+1680, U+2000 to U+200A, U+2028,
    U+2029, U+202F, U+205F, U+3000 and U+FEFF. *)
Fixpoint es_all_white_space (bytes : list nat) : bool :=
  match bytes with
  | [] => true
  | 9 :: rest | 10 :: rest | 11 :: rest | 12 :: rest | 13 :: rest | 32 :: rest =>
      es_all_white_space rest
  | 194 :: 160 :: rest => es_all_white_space rest
  | 225 :: 154 :: 128 :: rest => es_all_white_space rest
  | 226 :: 128 :: c :: rest =>
      if ((128 <=? c) && (c <=? 138) || (c =? 168) || (c =? 169) || (c =? 175))%nat
      then es_all_white_space rest else false
  | 226 :: 129 :: 159 :: rest => es_all_white_space rest
  | 227 :: 128 :: 128 :: rest => es_all_white_space rest
  | 239 :: 187 :: 191 :: rest => es_all_white_space rest
  | _ => false
  end.

Definition es_trim_is_empty (s : string) : bool :=
  es_all_white_space (map nat_of_ascii (list_ascii_of_string s)).

(** The property names of [Object.prototype] in ECMAScript (with Annex B). *)
Definition es_inherited_member (key : string) : bool :=
  existsb (String.eqb key)
    ["constructor"; "hasOwnProperty"; "isPrototypeOf"; "propertyIsEnumerable";
     "toLocaleString"; "toString"; "valueOf"; "__proto__";
     "__defineGetter__"; "__defineSetter__"; "__lookupGetter__";
     "__lookupSetter__"].

(** The values of the [AccountType] enumeration. *)
Definition AccountType_ASSET : string := "ASSET".
Definition AccountType_LIABILITY : string := "LIABILITY".
Definition AccountType_INCOMING : string := "INCOMING".
Definition AccountType_OUTGOING : string := "OUTGOING".

Definition bind_Account (self : string) (a : Account) : Account :=
  mk_Account (acc_wrapped a) (Some self).

Definition bind_Group (self : string) (g : Group) : Group :=
  mk_Group (grp_wrapped g) (Some self).

(** [configureTransaction_] and [configureTransactions_]: [transaction.book = this]. *)
Definition configureTransaction_ (self : string) (t : Transaction) : Transaction :=
  mk_Transaction (tx_wrapped t) (Some self).

Definition configureTransactions_ (self : string) (l : list Transaction) : list Transaction :=
  map (configureTransaction_ self) l.

(** The payload [{ name: groupName }] of [createGroups]. *)
Definition named_group (groupName : string) : bkper_Group :=
  mk_bkper_Group None groupName.

(** [isType] *)
Definition isType (groupOrType : string) : bool :=
  if String.eqb groupOrType AccountType_ASSET then true
  else if String.eqb groupOrType AccountType_LIABILITY then true
  else if String.eqb groupOrType AccountType_INCOMING then true
  else if String.eqb groupOrType AccountType_OUTGOING then true
  else false.

(** The loop of [getProperty]: the first key whose value is present and not
    blank is returned; [value.trim()] on an inherited member throws. *)
Fixpoint getProperty_loop `{Runtime} (properties : option (gmap string string))
    (keys : list string) : Exn + option string :=
  match keys with
  | [] => inr None
  | key :: rest =>
      let value := match properties with Some p => js_get p key | None => None end in
      match value with
      | Some (Own v) => if negb (trim_is_empty v) then inr (Some v)
                        else getProperty_loop properties rest
      | Some (Inherited _) => inl (TypeError "value.trim is not a function")
      | None => getProperty_loop properties rest
      end
  end.

Section Facade.

Context {W : Type} {rt : Runtime}.

(** The backend services, and the global [normalizeName] of another file. *)
Variable svc : Services W.
Variable normalizeName : string -> string.

Local Abbreviation Method := (M W).

(** The loop of [configureAccounts_], with the two index objects as
    accumulators: each account is bound to the book and entered under its id
    and under its normalized name, a later entry replacing an earlier one
    with the same key. *)
Fixpoint configureAccounts_loop (self : string) (l : list Account)
    (im nm : gmap string Account)
    : list Account * gmap string Account * gmap string Account :=
  match l with
  | [] => ([], im, nm)
  | a :: rest =>
      let account := bind_Account self a in
      let '(rest', im', nm') :=
        configureAccounts_loop self rest
          (<[property_key (Account_getId account) := account]> im)
          (<[property_key (Account_getNormalizedName account) := account]> nm) in
      (account :: rest', im', nm')
  end.

(** The loop of [configureGroups_]. *)
Fixpoint configureGroups_loop (self : string) (l : list Group)
    (im nm : gmap string Group)
    : list Group * gmap string Group * gmap string Group :=
  match l with
  | [] => ([], im, nm)
  | g :: rest =>
      let group := bind_Group self g in
      let '(rest', im', nm') :=
        configureGroups_loop self rest
          (<[property_key (Group_getId group) := group]> im)
          (<[normalizeName (Group_getName group) := group]> nm) in
      (group :: rest', im', nm')
  end.

Definition configureAccounts_ (l : list bkper_Account) : Method unit :=
  let* b := this in
  let '(accs, im, nm) :=
    configureAccounts_loop (book_id b) (wrapObjects_Account l) ∅ ∅ in
  assign (set_account_tier accs im nm).

Definition configureGroups_ (l : list bkper_Group) : Method unit :=
  let* b := this in
  let '(grps, im, nm) :=
    configureGroups_loop (book_id b) (wrapObjects_Group l) ∅ ∅ in
  assign (set_group_tier grps im nm).

Definition getId : Method string :=
  let* b := this in ret (book_id b).

Definition loadBook_ : Method unit :=
  let* id := getId in
  let* w := remote (LoadBookWrapped id) (BookService_loadBookWrapped svc id) in
  do assign (set_wrapped (Some w)) then
  do configureGroups_ (bk_groups w) then
  configureAccounts_ (bk_accounts w).

Definition checkBookLoaded_ : Method unit :=
  let* b := this in
  if isNull (wrapped b) then loadBook_ else ret tt.

Definition checkAccountsLoaded_ : Method unit :=
  let* b := this in
  if isNull (wrapped b) || isNull (idAccountMap b) || isNull (idAccountMap b)
  then loadBook_ else ret tt.

(** Reading a property of an object that may be [null]. *)
Definition deref {A : Type} (o : option A) : Method A :=
  match o with
  | Some x => ret x
  | None => throw (TypeError "Cannot read properties of null")
  end.

(** [this.wrapped.f] *)
Definition wrapped_field {A : Type} (f : bkper_Book -> A) : Method A :=
  let* b := this in let* w := deref (wrapped b) in ret (f w).

Definition getName : Method string :=
  do checkBookLoaded_ then wrapped_field bk_name.

Definition getFractionDigits : Method Z :=
  do checkBookLoaded_ then wrapped_field bk_fractionDigits.

Definition getOwnerName : Method string :=
  do checkBookLoaded_ then wrapped_field bk_ownerName.

Definition getPermission : Method string :=
  do checkBookLoaded_ then wrapped_field bk_permission.

Definition getCollection : Method (option Collection) :=
  do checkAccountsLoaded_ then
  let* wc := wrapped_field bk_collection in
  let* b := this in
  do match wc, collection b with
     | Some c, None => assign (set_collection (Some (mk_Collection c)))
     | _, _ => ret tt
     end then
  let* b' := this in ret (collection b').

Definition getDatePattern : Method string :=
  do checkBookLoaded_ then wrapped_field bk_datePattern.

Definition getDecimalSeparator : Method string :=
  do checkBookLoaded_ then wrapped_field bk_decimalSeparator.

Definition getTimeZone : Method string :=
  do checkBookLoaded_ then wrapped_field bk_timeZone.

Definition getTimeZoneOffset : Method Z :=
  do checkBookLoaded_ then wrapped_field bk_timeZoneOffset.

Definition getLastUpdateMs : Method js_number :=
  do checkBookLoaded_ then
  let* ms := wrapped_field bk_lastUpdateMs in
  ret (to_number ms).

Definition getProperties : Method (gmap string string) :=
  do checkBookLoaded_ then
  let* p := wrapped_field bk_properties in
  ret (match p with Some m => m | None => ∅ end).

Definition getProperty (keys : list string) : Method (option string) :=
  do checkBookLoaded_ then
  let* p := wrapped_field bk_properties in
  match getProperty_loop p keys with
  | inr value => ret value
  | inl e => throw e
  end.

Definition clearAccountsCache : Method unit :=
  do assign (set_idAccountMap None) then
  assign (set_idGroupMap None).

Definition clearBookCache_ : Method unit :=
  assign (set_wrapped None).

Definition batchCreateTransactions (transactions : list Transaction)
    : Method (list Transaction) :=
  let transactionPayloads := map tx_wrapped transactions in
  let* id := getId in
  let* created := remote (CreateTransactionsBatch id transactionPayloads)
               (TransactionService_createTransactionsBatch svc id transactionPayloads) in
  let* b := this in
  let transactions' :=
    configureTransactions_ (book_id b) (wrapObjects_Transaction created) in
  do clearAccountsCache then
  ret transactions'.

(** The opening statement of [record]: a missing or blank [timeZone] is
    replaced by the time zone of the book. *)
Definition record_timeZone (timeZone : option string) : Method string :=
  match timeZone with
  | None => getTimeZone
  | Some z => if trim_is_empty z then getTimeZone else ret z
  end.

Definition record (transactions : RecordInput) (timeZone : option string)
    : Method unit :=
  let* tz := record_timeZone timeZone in
  let* b := this in
  do remote (RecordDrafts (book_id b) transactions tz)
            (TransactionService_record svc b transactions tz) then
  clearAccountsCache.

Definition audit : Method unit :=
  let* b := this in
  remote (Audit (book_id b)) (BookService_audit svc b).

Definition getAccounts : Method (option (list Account)) :=
  do checkAccountsLoaded_ then
  let* b := this in ret (accounts b).

(** [idOrName + ''] leaves a string as it is.  The two indices are plain
    objects: what is found under a key is an account entered by
    [configureAccounts_] or a member inherited from [Object.prototype], and
    either is returned as it is. *)
Definition getAccount (idOrName : option string)
    : Method (option (Property Account)) :=
  match idOrName with
  | None => ret None
  | Some key =>
      do checkAccountsLoaded_ then
      let* b := this in
      let* im := deref (idAccountMap b) in
      match js_get im key with
      | Some account => ret (Some account)
      | None =>
          let normalizedIdOfName := normalizeName key in
          let* nm := deref (nameAccountMap b) in
          ret (js_get nm normalizedIdOfName)
      end
  end.

Definition getGroups : Method (option (list Group)) :=
  do checkAccountsLoaded_ then
  let* b := this in ret (groups b).

Definition getGroup (idOrName : option string)
    : Method (option (Property Group)) :=
  match idOrName with
  | None => ret None
  | Some key =>
      do checkAccountsLoaded_ then
      let* b := this in
      let* im := deref (idGroupMap b) in
      match js_get im key with
      | Some group => ret (Some group)
      | None =>
          let* nm := deref (nameGroupMap b) in
          ret (js_get nm (normalizeName key))
      end
  end.

(** The tail shared by [batchCreateAccounts] and [createAccounts]: nothing
    is sent for an empty payload list. *)
Definition send_accounts (accountsPayloads : list bkper_Account)
    : Method (list Account) :=
  if (0 <? List.length accountsPayloads)%nat then
    let* id := getId in
    let* createdAccountsPlain :=
      remote (CreateAccounts id accountsPayloads)
             (AccountService_createAccounts svc id accountsPayloads) in
    let createdAccounts := wrapObjects_Account createdAccountsPlain in
    do clearBookCache_ then
    let* b := this in
    ret (map (bind_Account (book_id b)) createdAccounts)
  else ret [].

Definition batchCreateAccounts (accs : list Account) : Method (list Account) :=
  send_accounts (map acc_wrapped accs).

(** The inner loop of [createAccounts] over the cells after the first.
    [group.getId()] throws when [getGroup] returned an inherited member. *)
Fixpoint createAccounts_cells (cells : list string) (account : bkper_Account)
    : Method bkper_Account :=
  match cells with
  | [] => ret account
  | cell :: rest =>
      if isType cell then
        createAccounts_cells rest
          (mk_bkper_Account (acc_id account) (acc_name account)
             (acc_normalizedName account) (Some cell) (acc_groups account))
      else
        let* group := getGroup (Some cell) in
        match group with
        | Some (Own g) =>
            createAccounts_cells rest
              (mk_bkper_Account (acc_id account) (acc_name account)
                 (acc_normalizedName account) (acc_type account)
                 (acc_groups account ++ [Group_getId g]))
        | Some (Inherited _) => throw (TypeError "group.getId is not a function")
        | None => createAccounts_cells rest account
        end
  end.

(** The outer loop of [createAccounts] over the rows.  Whatever [getAccount]
    returns that is not [null], an account or an inherited member, makes the
    row be skipped. *)
Fixpoint createAccounts_rows (rows : list (list string))
    (accountsPayloads : list bkper_Account) : Method (list bkper_Account) :=
  match rows with
  | [] => ret accountsPayloads
  | row :: rest =>
      let account :=
        mk_bkper_Account None (head row) None (Some AccountType_ASSET) [] in
      let* existing := getAccount (acc_name account) in
      if isSome existing then createAccounts_rows rest accountsPayloads
      else
        let* account' := createAccounts_cells (tail row) account in
        createAccounts_rows rest (accountsPayloads ++ [account'])
  end.

Definition createAccounts (rows : list (list string)) : Method (list Account) :=
  let* accountsPayloads := createAccounts_rows rows [] in
  send_accounts accountsPayloads.

(** The body shared by [batchCreateGroups] and [createGroups]. *)
Definition send_groups (nonempty : bool) (groupsSave : list bkper_Group)
    : Method (list Group) :=
  if nonempty then
    let* id := getId in
    let* createdGroups := remote (CreateGroups id groupsSave)
                       (GroupService_createGroups svc id groupsSave) in
    do clearBookCache_ then
    let* b := this in
    ret (map (bind_Group (book_id b)) createdGroups)
  else ret [].

Definition batchCreateGroups (grps : list Group) : Method (list Group) :=
  send_groups (0 <? List.length grps)%nat (map grp_wrapped grps).

Definition createGroups (names : list string) : Method (list Group) :=
  send_groups (0 <? List.length names)%nat (map named_group names).

Definition getSavedQueries : Method (option (list bkper_Query)) :=
  let* b := this in
  do (if isNull (savedQueries b) then
        let* id := getId in
        let* q := remote (GetSavedQueries id)
                    (SavedQueryService_getSavedQueries svc id) in
        assign (set_savedQueries (Some q))
      else ret tt) then
  let* b' := this in ret (savedQueries b').

(** [getBalancesReport] (and [createBalancesDataTable], [getBalanceReport]):
    the report is built from the book and the balances fetched. *)
Definition getBalancesReport (query : string) : Method (string * string) :=
  let* id := getId in
  let* balances := remote (GetBalances id query) (BalancesService_getBalances svc id query) in
  ret (id, balances).

Definition getTransaction (id : string) : Method Transaction :=
  let* bid := getId in
  let* w := remote (GetTransaction bid id) (TransactionService_getTransaction svc bid id) in
  ret (configureTransaction_ bid (mk_Transaction w None)).

(** [createAccount], deprecated. *)
Definition createAccount (name : string) (group description : option string)
    : Method (option (Property Account)) :=
  let* id := getId in
  do remote (CreateAccountV2 id name group description)
            (AccountService_createAccountV2 svc id name group description) then
  do clearBookCache_ then
  getAccount (Some name).

(** [formatDate], [formatValue] and [round] hand the book's settings to
    [Utils_]; what they do to the book is what the getters they call do. *)
Definition formatDate_settings : Method string := getDatePattern.

Definition formatValue_settings : Method (string * Z) :=
  let* digits := getFractionDigits in
  let* separator := getDecimalSeparator in
  ret (separator, digits).

Definition round_settings : Method Z := getFractionDigits.

(** ** The public interface as a transition system

    [Op] lists the public methods that read or write a field of the book or
    call a service.  [createAccountsDataTable] is [getAccounts];
    [createBalancesDataTable] and [getBalanceReport] are [getBalancesReport].
    The remaining methods ([getId], [newTransaction], [newAccount],
    [newGroup], [getTransactions], [search], [continueTransactionIterator],
    [createTransactionsDataTable]) build objects around the book and touch
    neither its fields nor the backend. *)

Definition void {A : Type} (m : Method A) : Method unit :=
  let* _ := m in ret tt.

Inductive Accessor :=
| Get_name
| Get_fractionDigits
| Get_ownerName
| Get_permission
| Get_collection
| Get_datePattern
| Get_decimalSeparator
| Get_timeZone
| Get_timeZoneOffset
| Get_lastUpdateMs
| Get_properties
| Get_property (keys : list string).

Definition call_accessor (a : Accessor) : Method unit :=
  match a with
  | Get_name => void getName
  | Get_fractionDigits => void getFractionDigits
  | Get_ownerName => void getOwnerName
  | Get_permission => void getPermission
  | Get_collection => void getCollection
  | Get_datePattern => void getDatePattern
  | Get_decimalSeparator => void getDecimalSeparator
  | Get_timeZone => void getTimeZone
  | Get_timeZoneOffset => void getTimeZoneOffset
  | Get_lastUpdateMs => void getLastUpdateMs
  | Get_properties => void getProperties
  | Get_property keys => void (getProperty keys)
  end.

Inductive Op :=
| Call_accessor (a : Accessor)
| Call_formatDate
| Call_formatValue
| Call_round
| Call_batchCreateTransactions (transactions : list Transaction)
| Call_record (transactions : RecordInput) (timeZone : option string)
| Call_audit
| Call_getAccounts
| Call_getAccount (idOrName : option string)
| Call_batchCreateAccounts (accs : list Account)
| Call_createAccounts (rows : list (list string))
| Call_getGroups
| Call_batchCreateGroups (grps : list Group)
| Call_createGroups (names : list string)
| Call_clearAccountsCache
| Call_getGroup (idOrName : option string)
| Call_getSavedQueries
| Call_getBalancesReport (query : string)
| Call_getTransaction (id : string)
| Call_createAccount (name : string) (group description : option string).

Definition run (o : Op) : Method unit :=
  match o with
  | Call_accessor a => call_accessor a
  | Call_formatDate => void formatDate_settings
  | Call_formatValue => void formatValue_settings
  | Call_round => void round_settings
  | Call_batchCreateTransactions l => void (batchCreateTransactions l)
  | Call_record t z => record t z
  | Call_audit => audit
  | Call_getAccounts => void getAccounts
  | Call_getAccount k => void (getAccount k)
  | Call_batchCreateAccounts l => void (batchCreateAccounts l)
  | Call_createAccounts rows => void (createAccounts rows)
  | Call_getGroups => void getGroups
  | Call_batchCreateGroups l => void (batchCreateGroups l)
  | Call_createGroups names => void (createGroups names)
  | Call_clearAccountsCache => clearAccountsCache
  | Call_getGroup k => void (getGroup k)
  | Call_getSavedQueries => void getSavedQueries
  | Call_getBalancesReport q => void (getBalancesReport q)
  | Call_getTransaction id => void (getTransaction id)
  | Call_createAccount n g d => void (createAccount n g d)
  end.

(** The states a book goes through: after each call, returned or thrown, the
    next call starts from the state the previous one ended in. *)
Inductive reachable (s0 : State W) : State W -> Prop :=
| reachable_start : reachable s0 s0
| reachable_call s o : reachable s0 s -> reachable s0 (final (run o s)).

(** [new Book(id, wrapped)] in front of a backend, before any remote call. *)
Definition initial (id : string) (w : option bkper_Book) (backend : W) : State W :=
  mk_State (new_Book id w) backend [].

End Facade.

(** ** Shapes of the cache *)

(** The two sequences and the two normalized-name indices. *)
Definition collections_present (b : Book) : bool :=
  isSome (accounts b) && isSome (groups b) &&
  isSome (nameAccountMap b) && isSome (nameGroupMap b).

Definition collections_absent (b : Book) : bool :=
  isNull (accounts b) && isNull (groups b) &&
  isNull (nameAccountMap b) && isNull (nameGroupMap b).

(** The two id indices are present together or absent together; when they
    are present so are the sequences and the name indices; and the sequences
    and name indices are present together or absent together. *)
Definition coherent (b : Book) : bool :=
  Bool.eqb (isSome (idAccountMap b)) (isSome (idGroupMap b)) &&
  (collections_present b || (collections_absent b && isNull (idAccountMap b))).

(** All six fields present, and all six absent. *)
Definition all_present (b : Book) : bool :=
  collections_present b && isSome (idAccountMap b) && isSome (idGroupMap b).

Definition all_absent (b : Book) : bool :=
  collections_absent b && isNull (idAccountMap b) && isNull (idGroupMap b).

(** The snapshot and all six collection fields are present. *)
Definition ready (b : Book) : bool := isSome (wrapped b) && all_present b.

(** What [clearAccountsCache] does to a book: the two id indices are gone,
    every other field is as before. *)
Definition id_indices_dropped (before after : Book) : Prop :=
  idAccountMap after = None /\ idGroupMap after = None /\
  nameAccountMap after = nameAccountMap before /\
  nameGroupMap after = nameGroupMap before /\
  accounts after = accounts before /\ groups after = groups before /\
  wrapped after = wrapped before /\ collection after = collection before /\
  savedQueries after = savedQueries before /\ book_id after = book_id before.

(** What [clearBookCache_] does to a book: the snapshot is gone, every other
    field is as before. *)
Definition snapshot_dropped (before after : Book) : Prop :=
  wrapped after = None /\
  accounts after = accounts before /\ groups after = groups before /\
  idAccountMap after = idAccountMap before /\
  nameAccountMap after = nameAccountMap before /\
  idGroupMap after = idGroupMap before /\
  nameGroupMap after = nameGroupMap before /\
  collection after = collection before /\
  savedQueries after = savedQueries before /\ book_id after = book_id before.

(** The state left by one remote call [c] that found the book as [b]. *)
Definition after_call {W : Type} (s : State W) (c : RemoteCall) (b : Book)
    (backend : W) : State W :=
  mk_State b backend (c :: trace s).

(** An index built by entering the elements of [l] in order under [key]. *)
Definition index_by {A : Type} (key : A -> string) (l : list A)
    (m : gmap string A) : gmap string A :=
  fold_left (fun acc a => <[key a := a]> acc) l m.

(** ** Properties of methods *)

(** [m] keeps the book inside [I], whether it returns or throws. *)
Definition preserves {W A : Type} (I : Book -> Prop) (m : M W A) : Prop :=
  forall s, I (book s) -> I (book (final (m s))).

(** A method is [lazy] when it returns without touching a ready book, and
    otherwise either returns leaving the state alone or the book ready, or
    throws with every field of the book as it was. *)
Definition lazy {W A : Type} (m : M W A) : Prop :=
  (forall s, ready (book s) = true -> exists a, m s = Returned a s) /\
  (forall s, match m s with
             | Returned _ s' => s' = s \/ ready (book s') = true
             | Thrown _ s' => book s' = book s
             end).

(** On a ready book [m] returns without a remote call and leaves it ready. *)
Definition quiet {W A : Type} (m : M W A) : Prop :=
  forall s, ready (book s) = true ->
    exists a s', m s = Returned a s' /\ trace s' = trace s /\
                 world s' = world s /\ ready (book s') = true.

(** On a ready book [m] ends, returning or throwing, without a remote call,
    and leaves the book ready. *)
Definition silent {W A : Type} (m : M W A) : Prop :=
  forall s, ready (book s) = true ->
    trace (final (m s)) = trace s /\ world (final (m s)) = world s /\
    ready (book (final (m s))) = true.

(** On a ready book [m] ends, returning or throwing, without a fetch of the
    ledger, and leaves the book ready. *)
Definition fetchless {W A : Type} (m : M W A) : Prop :=
  forall s, ready (book s) = true ->
    fetches (final (m s)) = fetches s /\ ready (book (final (m s))) = true.

(** ** What a read sees *)

(** The accounts and groups of a fetched ledger as [loadBook_] installs them
    in the book [self]. *)
Definition fetched_accounts (self : string) (w : bkper_Book) : list Account :=
  map (bind_Account self) (wrapObjects_Account (bk_accounts w)).

Definition fetched_groups (self : string) (w : bkper_Book) : list Group :=
  map (bind_Group self) (wrapObjects_Group (bk_groups w)).

Definition account_id_key (a : Account) : string := property_key (Account_getId a).

Definition account_name_key (a : Account) : string :=
  property_key (Account_getNormalizedName a).

Definition group_id_key (g : Group) : string := property_key (Group_getId g).

(** The answer of a lookup over an id index and a name index: the id index
    first, the name index under the normalized key on a miss. *)
Definition lookup_in `{Runtime} {A : Type} (im nm : gmap string A)
    (normalizeName : string -> string) (key : string) : option (Property A) :=
  match js_get im key with
  | Some a => Some a
  | None => js_get nm (normalizeName key)
  end.

(** An assignment under the key [__proto__] adds no property to a plain
    object: it replaces its prototype.  The accounts and groups of a ledger
    are entered in the indices as own properties when none of their ids and
    normalized names is that key. *)
Definition proto_key : string := "__proto__".

Definition own_keys (normalizeName : string -> string) (w : bkper_Book) : bool :=
  forallb (fun a => negb (String.eqb (property_key (acc_id a)) proto_key) &&
                    negb (String.eqb (property_key (acc_normalizedName a)) proto_key))
          (bk_accounts w) &&
  forallb (fun g => negb (String.eqb (property_key (grp_id g)) proto_key) &&
                    negb (String.eqb (normalizeName (grp_name g)) proto_key))
          (bk_groups w).

(** Every ledger the backend hands out is entered as own properties. *)
Definition own_keys_backend {W : Type} (svc : Services W)
    (normalizeName : string -> string) : Prop :=
  forall id backend w,
    fst (BookService_loadBookWrapped svc id backend) = Ok w ->
    own_keys normalizeName w = true.

(** The gate of the collections is open: the next gated read loads. *)
Definition gate_open (b : Book) : bool :=
  negb (isSome (wrapped b) && isSome (idAccountMap b)).

(** On a book whose gate of the collections is shut (the snapshot and the
    account id index are present) [m] ends, returning or throwing, in the
    state it started from. *)
Definition still {W A : Type} (m : M W A) : Prop :=
  forall s, gate_open (book s) = false -> final (m s) = s.

(** Every entry of the index [idx] sits under its own key, is bound to the
    book [self] and is an element of the sequence [seq]. *)
Definition index_sound {A : Type} (key : A -> string) (owner : A -> option string)
    (self : string) (idx : option (gmap string A)) (seq : option (list A)) : Prop :=
  forall m k a,
    idx = Some m -> m !! k = Some a ->
    key a = k /\ owner a = Some self /\ exists l, seq = Some l /\ In a l.

(** The four indices of a book are sound for its two sequences. *)
Definition indexed (normalizeName : string -> string) (b : Book) : Prop :=
  index_sound account_id_key acc_book (book_id b) (idAccountMap b) (accounts b) /\
  index_sound account_name_key acc_book (book_id b) (nameAccountMap b) (accounts b) /\
  index_sound group_id_key grp_book (book_id b) (idGroupMap b) (groups b) /\
  index_sound (fun g => normalizeName (Group_getName g)) grp_book (book_id b)
              (nameGroupMap b) (groups b).

(** What [getProperty] makes of one key: a value it can return (own and
    not blank), nothing (absent, or own and blank), or an inherited member,
    on which [trim] cannot be called. *)
Inductive PropertyRead :=
| Usable (value : string)
| Skipped
| Faulty.

Definition property_read `{Runtime} (properties : option (gmap string string))
    (key : string) : PropertyRead :=
  match properties with
  | Some p =>
      match js_get p key with
      | Some (Own v) => if trim_is_empty v then Skipped else Usable v
      | Some (Inherited _) => Faulty
      | None => Skipped
      end
  | None => Skipped
  end.


(** ** What a lookup answers in a state *)





(** ** Calls that invalidate *)

(** The mutations and the cache clear: the calls after which a read may
    have to fetch the ledger again. *)
Definition invalidates (o : Op) : bool :=
  match o with
  | Call_batchCreateTransactions _ | Call_record _ _
  | Call_batchCreateAccounts _ | Call_createAccounts _
  | Call_batchCreateGroups _ | Call_createGroups _
  | Call_clearAccountsCache | Call_createAccount _ _ _ => true
  | _ => false
  end.

(** One call after the other, each from the state the one before ended in,
    returned or thrown. *)
Fixpoint run_all {W : Type} `{Runtime} (svc : Services W)
    (normalizeName : string -> string) (ops : list Op) (s : State W) : State W :=
  match ops with
  | [] => s
  | o :: rest => run_all svc normalizeName rest (final (run svc normalizeName o s))
  end.

(** ** A small backend for examples *)

(** A stand-in for [+s]: the value of a decimal numeral, nothing otherwise. *)
Fixpoint demo_digits (s : string) (acc : Z) : option Z :=
  match s with
  | EmptyString => Some acc
  | String c rest =>
      let n := nat_of_ascii c in
      if ((48 <=? n) && (n <=? 57))%nat
      then demo_digits rest (10 * acc + Z.of_nat (n - 48))
      else None
  end.

(** The runtime of the examples: [trim] and [Object.prototype] as in
    ECMAScript. *)
Definition demo_runtime : Runtime :=
  {| trim_is_empty := es_trim_is_empty;
     inherited_member := es_inherited_member;
     js_number := option Z;
     to_number := fun s => demo_digits s 0 |}.

(** U+00A0, the no-break space, in UTF-8. *)
Definition demo_no_break_space : string :=
  String "194" (String "160" EmptyString).

(** Reads and calls that are neither a mutation nor a cache clear. *)
Definition demo_reads : list Op :=
  [Call_accessor Get_timeZone; Call_getAccount (Some "toString");
   Call_accessor (Get_property ["constructor"]); Call_audit;
   Call_accessor Get_collection; Call_getSavedQueries; Call_getGroups;
   Call_accessor Get_name].

Definition demo_toLower (c : ascii) : ascii :=
  let n := nat_of_ascii c in
  if ((65 <=? n) && (n <=? 90))%nat then ascii_of_nat (n + 32) else c.

(** A stand-in for [normalizeName]: lower case, spaces removed. *)
Fixpoint demo_normalizeName (s : string) : string :=
  match s with
  | EmptyString => EmptyString
  | String c rest =>
      if Ascii.eqb c " "%char then demo_normalizeName rest
      else String (demo_toLower c) (demo_normalizeName rest)
  end.

Definition demo_account (id name : string) : bkper_Account :=
  mk_bkper_Account (Some id) (Some name) (Some (demo_normalizeName name))
                   (Some AccountType_ASSET) [].

Definition demo_ledger : bkper_Book :=
  mk_bkper_Book "Demo" 2 "Owner" "OWNER" None "dd/MM/yyyy" "DOT" "UTC" 0 "1000" None
    [mk_bkper_Group (Some "g1") "Fixed Costs"; mk_bkper_Group (Some "g2") "fixed costs"]
    [demo_account "a1" "Bank Account"; demo_account "a2" "Cash";
     demo_account "a3" "bank account"].

Definition demo_reply {A : Type} (ok : bool) (a : A) (n : nat) : Reply A * nat :=
  (if ok then Ok a else Fail (RemoteFailure "503"), S n).

(** A backend that counts its calls; each family of services replies or
    fails as the flags say. *)
Definition demo_services (load_ok mutate_ok query_ok : bool) : Services nat :=
  mk_Services nat
    (fun _ => demo_reply load_ok demo_ledger)
    (fun _ => demo_reply mutate_ok tt)
    (fun _ payloads => demo_reply mutate_ok payloads)
    (fun _ _ _ => demo_reply mutate_ok tt)
    (fun _ id => demo_reply query_ok (mk_bkper_Transaction id "demo"))
    (fun _ payloads => demo_reply mutate_ok payloads)
    (fun _ name _ _ => demo_reply mutate_ok (demo_account "a9" name))
    (fun _ payloads => demo_reply mutate_ok (wrapObjects_Group payloads))
    (fun _ => demo_reply query_ok [mk_bkper_Query "q1" "account:Cash" "Cash"])
    (fun _ _ => demo_reply query_ok "{}").

Definition demo_ok : Services nat := demo_services true true true.
Definition demo_ledger_down : Services nat := demo_services false true true.
Definition demo_mutation_down : Services nat := demo_services true false true.
Definition demo_queries_down : Services nat := demo_services true true false.

Definition demo_fresh : State nat := initial "book-1" None 0.

Section DemoStates.

#[local] Existing Instance demo_runtime.

(** The demo book once its collections have been read. *)
Definition demo_loaded : State nat :=
  final (getAccounts demo_ok demo_normalizeName demo_fresh).

Definition demo_tx : Transaction :=
  mk_Transaction (mk_bkper_Transaction "t1" "gas 63.23") None.

Definition demo_new_account : Account :=
  mk_Account (mk_bkper_Account None (Some "Savings") None (Some AccountType_ASSET) [])
             None.

Definition demo_new_group : Group :=
  mk_Group (mk_bkper_Group None "Taxes") None.

(** The loaded demo book after [clearAccountsCache]. *)
Definition demo_cleared : State nat :=
  final (run demo_ok demo_normalizeName Call_clearAccountsCache
           (final (run demo_ok demo_normalizeName Call_getAccounts demo_fresh))).

(** The demo book after one [getSavedQueries], and after two mutations more. *)
Definition demo_queried : State nat :=
  final (run demo_ok demo_normalizeName Call_getSavedQueries demo_fresh).

Definition demo_queried_later : State nat :=
  final (run demo_ok demo_normalizeName (Call_batchCreateAccounts [demo_new_account])
           (final (run demo_ok demo_normalizeName
                     (Call_batchCreateTransactions [demo_tx]) demo_queried))).

(** The demo book after a first accessor call whose fetch failed. *)
Definition demo_failed_once : State nat :=
  final (call_accessor demo_ledger_down demo_normalizeName Get_name demo_fresh).

(** The demo book after a first [getSavedQueries] whose fetch failed. *)
Definition demo_query_failed_once : State nat :=
  final (getSavedQueries demo_queries_down demo_fresh).

(** A book constructed around a ledger that has properties, one of them a
    no-break space. *)
Definition demo_ledger_with_properties : bkper_Book :=
  mk_bkper_Book "Props" 2 "Owner" "OWNER" None "dd/MM/yyyy" "DOT" "UTC" 0 "1000"
    (Some (<["code" := "USD"]>
             (<["currency" := "  "]> (<["symbol" := demo_no_break_space]> ∅)))) [] [].

Definition demo_with_properties : State nat :=
  initial "book-2" (Some demo_ledger_with_properties) 0.

(** The loaded demo book holding a collection wrapper, and the same book
    after a creation and the reload it forces (the ledger fetched has no
    collection). *)
Definition demo_collection : Collection :=
  mk_Collection (mk_bkper_Collection "c1" "Family").

Definition demo_collected : State nat :=
  mk_State (set_collection (Some demo_collection) (book demo_loaded))
           (world demo_loaded) (trace demo_loaded).

Definition demo_collected_later : State nat :=
  final (run demo_ok demo_normalizeName Call_getAccounts
           (final (run demo_ok demo_normalizeName
                     (Call_batchCreateAccounts [demo_new_account]) demo_collected))).

End DemoStates.

(** * Verification *)

Section Reasoning.

Context {W : Type} {rt : Runtime}.
Variable svc : Services W.
Variable normalizeName : string -> string.

(** ** Invariants that compose along [bind] *)

Lemma preserves_ret {A} I (a : A) : preserves I (ret (W:=W) a).
Proof. intros s H. exact H. Qed.

Lemma preserves_throw {A} I e : preserves I (throw (W:=W) (A:=A) e).
Proof. intros s H. exact H. Qed.

Lemma preserves_bind {A B} I (m : M W A) (k : A -> M W B) :
  preserves I m -> (forall a, preserves I (k a)) -> preserves I (bind m k).
Proof.
  intros Hm Hk s H. unfold bind.
  specialize (Hm s H). destruct (m s) as [a s'|e s']; simpl in *.
  - apply Hk. exact Hm.
  - exact Hm.
Qed.

Lemma preserves_this I : preserves I (this (W:=W)).
Proof. intros s H. exact H. Qed.

Lemma preserves_assign I (f : Book -> Book) :
  (forall b, I b -> I (f b)) -> preserves I (assign (W:=W) f).
Proof. intros Hf s H. simpl. apply Hf. exact H. Qed.

Lemma preserves_remote {A} I c (f : W -> Reply A * W) : preserves I (remote c f).
Proof. intros s H. unfold remote. destruct (fst (f (world s))); exact H. Qed.

Lemma preserves_deref {A} I (o : option A) : preserves I (deref (W:=W) o).
Proof. intros s H. destruct o; exact H. Qed.

Lemma preserves_void {A} I (m : M W A) : preserves I m -> preserves I (void m).
Proof.
  intros Hm. unfold void. apply preserves_bind; [exact Hm|].
  intros a. apply preserves_ret.
Qed.

(** Case analysis on a conditional or a match at the head of a method. *)
Ltac pres_case :=
  match goal with
  | |- preserves _ (if ?c then _ else _) => destruct c
  | |- preserves _ (match ?x with _ => _ end) => destruct x
  end.

Ltac pres :=
  repeat first
    [ assumption
    | apply preserves_ret | apply preserves_throw | apply preserves_this
    | apply preserves_remote | apply preserves_deref
    | apply preserves_void
    | apply preserves_bind; [|intros ?]
    | apply preserves_assign; solve [auto]
    | pres_case ].

(** ** The indices built by the two configure loops *)

Lemma index_by_later {A} (key : A -> string) (q : list A) :
  forall (m : gmap string A) k,
    (forall y, In y q -> key y <> k) -> index_by key q m !! k = m !! k.
Proof.
  induction q as [|y q IH]; intros m k Hq; [reflexivity|].
  unfold index_by in *. cbn [fold_left]. rewrite IH.
  - apply lookup_insert_ne. apply Hq. left. reflexivity.
  - intros z Hz. apply Hq. right. exact Hz.
Qed.

Lemma index_by_last {A} (key : A -> string) (p q : list A) (x : A) m :
  (forall y, In y q -> key y <> key x) ->
  index_by key (p ++ x :: q) m !! key x = Some x.
Proof.
  intros Hq. unfold index_by. rewrite fold_left_app. cbn [fold_left].
  fold (index_by key q (<[key x:=x]> (fold_left (fun acc a => <[key a:=a]> acc) p m))).
  rewrite index_by_later by exact Hq. apply lookup_insert_eq.
Qed.

Lemma index_by_NoDup {A} (key : A -> string) (l : list A) (x : A) m :
  NoDup (map key l) -> In x l -> index_by key l m !! key x = Some x.
Proof.
  intros Hnd Hin. apply in_split in Hin. destruct Hin as (p & q & ->).
  apply index_by_last. intros y Hy Heq.
  rewrite map_app in Hnd. cbn [map] in Hnd.
  apply NoDup_app in Hnd. destruct Hnd as (_ & _ & Hnd).
  apply NoDup_cons in Hnd. destruct Hnd as [Hnotin _].
  apply Hnotin. rewrite <- Heq. apply list_elem_of_In, in_map. exact Hy.
Qed.

Lemma configureAccounts_loop_eq self l :
  forall im nm,
    configureAccounts_loop self l im nm =
    (map (bind_Account self) l,
     index_by (fun a => property_key (Account_getId a)) (map (bind_Account self) l) im,
     index_by (fun a => property_key (Account_getNormalizedName a))
              (map (bind_Account self) l) nm).
Proof.
  induction l as [|a l IH]; intros im nm; [reflexivity|].
  cbn [configureAccounts_loop]. rewrite IH. reflexivity.
Qed.

Lemma configureGroups_loop_eq self l :
  forall im nm,
    configureGroups_loop normalizeName self l im nm =
    (map (bind_Group self) l,
     index_by (fun g => property_key (Group_getId g)) (map (bind_Group self) l) im,
     index_by (fun g => normalizeName (Group_getName g)) (map (bind_Group self) l) nm).
Proof.
  induction l as [|g l IH]; intros im nm; [reflexivity|].
  cbn [configureGroups_loop]. rewrite IH. reflexivity.
Qed.

Lemma configureAccounts__eq l (s : State W) :
  configureAccounts_ l s =
  Returned tt
    (mk_State
       (set_account_tier
          (map (bind_Account (book_id (book s))) (wrapObjects_Account l))
          (index_by (fun a => property_key (Account_getId a))
             (map (bind_Account (book_id (book s))) (wrapObjects_Account l)) ∅)
          (index_by (fun a => property_key (Account_getNormalizedName a))
             (map (bind_Account (book_id (book s))) (wrapObjects_Account l)) ∅)
          (book s))
       (world s) (trace s)).
Proof.
  unfold configureAccounts_, bind, this. rewrite configureAccounts_loop_eq.
  reflexivity.
Qed.

Lemma configureGroups__eq l (s : State W) :
  configureGroups_ normalizeName l s =
  Returned tt
    (mk_State
       (set_group_tier
          (map (bind_Group (book_id (book s))) (wrapObjects_Group l))
          (index_by (fun g => property_key (Group_getId g))
             (map (bind_Group (book_id (book s))) (wrapObjects_Group l)) ∅)
          (index_by (fun g => normalizeName (Group_getName g))
             (map (bind_Group (book_id (book s))) (wrapObjects_Group l)) ∅)
          (book s))
       (world s) (trace s)).
Proof.
  unfold configureGroups_, bind, this. rewrite configureGroups_loop_eq.
  reflexivity.
Qed.

(** ** One load *)

(** Unfold the monad and run the steps whose outcome is known. *)
Ltac run_steps :=
  unfold void, getId, clearAccountsCache, clearBookCache_;
  unfold bind, this, ret, throw, assign, remote;
  cbv beta iota; cbn [book world trace final fst snd].

Lemma loadBook__fails s e :
  fst (BookService_loadBookWrapped svc (book_id (book s)) (world s)) = Fail e ->
  loadBook_ svc normalizeName s =
  Thrown e (after_call s (LoadBookWrapped (book_id (book s))) (book s)
              (snd (BookService_loadBookWrapped svc (book_id (book s)) (world s)))).
Proof.
  intros H. unfold loadBook_. run_steps. rewrite H. reflexivity.
Qed.

Lemma loadBook__loads s w :
  fst (BookService_loadBookWrapped svc (book_id (book s)) (world s)) = Ok w ->
  exists b,
    loadBook_ svc normalizeName s =
    Returned tt (after_call s (LoadBookWrapped (book_id (book s))) b
                   (snd (BookService_loadBookWrapped svc (book_id (book s)) (world s)))) /\
    wrapped b = Some w /\ all_present b = true /\
    book_id b = book_id (book s) /\ collection b = collection (book s) /\
    savedQueries b = savedQueries (book s).
Proof.
  intros H. unfold loadBook_. run_steps. rewrite H. run_steps.
  rewrite configureGroups__eq. run_steps.
  rewrite configureAccounts__eq. run_steps.
  eexists. split; [reflexivity|]. repeat split.
Qed.

Lemma loadBook__trace s :
  trace (final (loadBook_ svc normalizeName s)) =
  LoadBookWrapped (book_id (book s)) :: trace s.
Proof.
  destruct (fst (BookService_loadBookWrapped svc (book_id (book s)) (world s)))
    as [w|e] eqn:H.
  - destruct (loadBook__loads s w H) as (b & -> & _). reflexivity.
  - rewrite (loadBook__fails s e H). reflexivity.
Qed.

Section Closure.

(** An invariant of the book that survives writing [wrapped] or
    [collection], a load, [clearAccountsCache] and [getSavedQueries] survives
    every public method, whether the method returns or throws. *)
Variable I : Book -> Prop.
Hypothesis I_set_wrapped : forall v b, I b -> I (set_wrapped v b).
Hypothesis I_set_collection : forall v b, I b -> I (set_collection v b).
Hypothesis I_loadBook : preserves I (loadBook_ svc normalizeName).
Hypothesis I_clearAccountsCache : preserves I (clearAccountsCache (W:=W)).
Hypothesis I_getSavedQueries : preserves I (getSavedQueries svc).

Lemma preserves_checkBookLoaded_ : preserves I (checkBookLoaded_ svc normalizeName).
Proof. unfold checkBookLoaded_. pres. Qed.

Lemma preserves_checkAccountsLoaded_ :
  preserves I (checkAccountsLoaded_ svc normalizeName).
Proof. unfold checkAccountsLoaded_. pres. Qed.

Lemma preserves_wrapped_field {A} (f : bkper_Book -> A) :
  preserves I (wrapped_field (W:=W) f).
Proof. unfold wrapped_field. pres. Qed.

Local Hint Resolve preserves_checkBookLoaded_ preserves_checkAccountsLoaded_
  preserves_wrapped_field : core.

Lemma preserves_call_accessor a :
  preserves I (call_accessor svc normalizeName a).
Proof.
  destruct a; simpl;
    unfold getName, getFractionDigits, getOwnerName, getPermission,
      getCollection, getDatePattern, getDecimalSeparator, getTimeZone,
      getTimeZoneOffset, getLastUpdateMs, getProperties, getProperty;
    pres; auto.
Qed.

Lemma preserves_getAccount k : preserves I (getAccount svc normalizeName k).
Proof. unfold getAccount. pres; auto. Qed.

Lemma preserves_getGroup k : preserves I (getGroup svc normalizeName k).
Proof. unfold getGroup. pres; auto. Qed.

Lemma preserves_send_accounts p : preserves I (send_accounts svc p).
Proof. unfold send_accounts, clearBookCache_, getId. pres. Qed.

Lemma preserves_send_groups ne p : preserves I (send_groups svc ne p).
Proof. unfold send_groups, clearBookCache_, getId. pres. Qed.

Lemma preserves_createAccounts_cells cells :
  forall account, preserves I (createAccounts_cells svc normalizeName cells account).
Proof.
  induction cells as [|cell rest IH]; intros account;
    cbn [createAccounts_cells].
  - pres.
  - destruct (isType cell); [apply IH|].
    apply preserves_bind; [apply preserves_getGroup|].
    intros [[g|k]|]; [apply IH|apply preserves_throw|apply IH].
Qed.

Lemma preserves_createAccounts_rows rows :
  forall payloads, preserves I (createAccounts_rows svc normalizeName rows payloads).
Proof.
  induction rows as [|row rest IH]; intros payloads;
    cbn [createAccounts_rows].
  - pres.
  - apply preserves_bind; [apply preserves_getAccount|].
    intros existing. destruct (isSome existing); [apply IH|].
    apply preserves_bind; [apply preserves_createAccounts_cells|].
    intros account'. apply IH.
Qed.

Lemma preserves_run o : preserves I (run svc normalizeName o).
Proof.
  destruct o; cbn [run].
  - apply preserves_call_accessor.
  - apply (preserves_call_accessor Get_datePattern).
  - unfold formatValue_settings, getFractionDigits, getDecimalSeparator. pres; auto.
  - apply (preserves_call_accessor Get_fractionDigits).
  - unfold batchCreateTransactions, getId. pres.
  - unfold record, record_timeZone.
    apply preserves_bind.
    + destruct timeZone as [z|]; [destruct (trim_is_empty z)|];
        try apply preserves_ret;
        apply (preserves_call_accessor Get_timeZone) || (unfold getTimeZone; pres; auto).
    + intros tz. pres.
  - unfold audit. pres.
  - unfold getAccounts. pres; auto.
  - apply preserves_void, preserves_getAccount.
  - apply preserves_void, preserves_send_accounts.
  - unfold createAccounts. apply preserves_void, preserves_bind.
    + apply preserves_createAccounts_rows.
    + intros p. apply preserves_send_accounts.
  - unfold getGroups. pres; auto.
  - apply preserves_void, preserves_send_groups.
  - apply preserves_void, preserves_send_groups.
  - assumption.
  - apply preserves_void, preserves_getGroup.
  - apply preserves_void. assumption.
  - unfold getBalancesReport, getId. pres.
  - unfold getTransaction, getId. pres.
  - unfold createAccount, clearBookCache_, getId.
    apply preserves_void.
    apply preserves_bind; [pres|intros id].
    apply preserves_bind; [pres|intros _].
    apply preserves_bind; [pres|intros _].
    apply preserves_getAccount.
Qed.

Lemma preserves_reachable s0 s :
  reachable svc normalizeName s0 s -> I (book s0) -> I (book s).
Proof.
  induction 1 as [|s o Hr IH]; intros H0; [exact H0|].
  apply preserves_run. apply IH. exact H0.
Qed.

End Closure.

(** ** The two gates *)

Lemma checkBookLoaded__noop s :
  isSome (wrapped (book s)) = true ->
  checkBookLoaded_ svc normalizeName s = Returned tt s.
Proof.
  intros H. unfold checkBookLoaded_. run_steps.
  unfold isNull. rewrite H. reflexivity.
Qed.

Lemma checkBookLoaded__load s :
  wrapped (book s) = None ->
  checkBookLoaded_ svc normalizeName s = loadBook_ svc normalizeName s.
Proof.
  intros H. unfold checkBookLoaded_. run_steps. rewrite H. reflexivity.
Qed.

Lemma checkAccountsLoaded__noop s :
  isSome (wrapped (book s)) = true -> isSome (idAccountMap (book s)) = true ->
  checkAccountsLoaded_ svc normalizeName s = Returned tt s.
Proof.
  intros H1 H2. unfold checkAccountsLoaded_. run_steps.
  unfold isNull. rewrite H1, H2. reflexivity.
Qed.

Lemma checkAccountsLoaded__load s :
  isSome (wrapped (book s)) && isSome (idAccountMap (book s)) = false ->
  checkAccountsLoaded_ svc normalizeName s = loadBook_ svc normalizeName s.
Proof.
  intros H. unfold checkAccountsLoaded_. run_steps. unfold isNull.
  destruct (isSome (wrapped (book s))), (isSome (idAccountMap (book s)));
    try discriminate; reflexivity.
Qed.

Lemma gate_after_load s w :
  fst (BookService_loadBookWrapped svc (book_id (book s)) (world s)) = Ok w ->
  exists s1, loadBook_ svc normalizeName s = Returned tt s1 /\
             ready (book s1) = true /\
             trace s1 = LoadBookWrapped (book_id (book s)) :: trace s.
Proof.
  intros H. destruct (loadBook__loads s w H) as (b & E & Hw & Hp & _).
  eexists. split; [exact E|]. split; [|reflexivity].
  unfold ready, after_call. cbn [book]. rewrite Hw, Hp. reflexivity.
Qed.

Lemma ready_fields b :
  ready b = true ->
  exists w im nm gim gnm,
    wrapped b = Some w /\ idAccountMap b = Some im /\ nameAccountMap b = Some nm /\
    idGroupMap b = Some gim /\ nameGroupMap b = Some gnm.
Proof.
  unfold ready, all_present, collections_present.
  destruct (wrapped b), (accounts b), (groups b), (idAccountMap b),
    (nameAccountMap b), (idGroupMap b), (nameGroupMap b);
    try discriminate; intros _; eauto 10.
Qed.

Lemma coherent_fields b :
  coherent b = true -> isSome (idAccountMap b) = true ->
  exists im nm gim gnm,
    idAccountMap b = Some im /\ nameAccountMap b = Some nm /\
    idGroupMap b = Some gim /\ nameGroupMap b = Some gnm.
Proof.
  unfold coherent, collections_present, collections_absent, isNull.
  destruct (accounts b), (groups b), (idAccountMap b),
    (nameAccountMap b), (idGroupMap b), (nameGroupMap b);
    try discriminate; intros _ _; eauto 10.
Qed.

(** The outcome of the gate of the collections: nothing happens on a loaded
    book; otherwise one load, which either fails and changes no field, or
    leaves the book ready. *)
Lemma checkAccountsLoaded__cases s :
  (isSome (wrapped (book s)) && isSome (idAccountMap (book s)) = true /\
   checkAccountsLoaded_ svc normalizeName s = Returned tt s) \/
  (exists s1, checkAccountsLoaded_ svc normalizeName s = Returned tt s1 /\
              ready (book s1) = true) \/
  (exists e s1, checkAccountsLoaded_ svc normalizeName s = Thrown e s1 /\
                book s1 = book s).
Proof.
  destruct (isSome (wrapped (book s)) && isSome (idAccountMap (book s))) eqn:E.
  - left. split; [reflexivity|].
    apply andb_true_iff in E. destruct E. apply checkAccountsLoaded__noop; assumption.
  - right. rewrite (checkAccountsLoaded__load s E).
    destruct (fst (BookService_loadBookWrapped svc (book_id (book s)) (world s)))
      as [w|e] eqn:H.
    + left. destruct (gate_after_load s w H) as (s1 & E1 & Hr & _). eauto.
    + right. rewrite (loadBook__fails s e H). eexists _, _. split; reflexivity.
Qed.

(** ** Methods that at most load *)

Lemma lazy_ret {A} (a : A) : lazy (ret (W:=W) a).
Proof. split; intros s; [eauto|left; reflexivity]. Qed.

Lemma getAccount_eq key s :
  getAccount svc normalizeName (Some key) s =
  match checkAccountsLoaded_ svc normalizeName s with
  | Returned _ s1 =>
      match idAccountMap (book s1) with
      | Some im =>
          match js_get im key with
          | Some a => Returned (Some a) s1
          | None =>
              match nameAccountMap (book s1) with
              | Some nm => Returned (js_get nm (normalizeName key)) s1
              | None => Thrown (TypeError "Cannot read properties of null") s1
              end
          end
      | None => Thrown (TypeError "Cannot read properties of null") s1
      end
  | Thrown e s1 => Thrown e s1
  end.
Proof.
  unfold getAccount. unfold bind at 1.
  destruct (checkAccountsLoaded_ svc normalizeName s) as [[] s1|e s1]; [|reflexivity].
  unfold deref. run_steps.
  destruct (idAccountMap (book s1)) as [im|]; [|reflexivity]. cbv beta iota.
  destruct (js_get im key); [reflexivity|].
  destruct (nameAccountMap (book s1)); reflexivity.
Qed.

Lemma getGroup_eq key s :
  getGroup svc normalizeName (Some key) s =
  match checkAccountsLoaded_ svc normalizeName s with
  | Returned _ s1 =>
      match idGroupMap (book s1) with
      | Some im =>
          match js_get im key with
          | Some g => Returned (Some g) s1
          | None =>
              match nameGroupMap (book s1) with
              | Some nm => Returned (js_get nm (normalizeName key)) s1
              | None => Thrown (TypeError "Cannot read properties of null") s1
              end
          end
      | None => Thrown (TypeError "Cannot read properties of null") s1
      end
  | Thrown e s1 => Thrown e s1
  end.
Proof.
  unfold getGroup. unfold bind at 1.
  destruct (checkAccountsLoaded_ svc normalizeName s) as [[] s1|e s1]; [|reflexivity].
  unfold deref. run_steps.
  destruct (idGroupMap (book s1)) as [im|]; [|reflexivity]. cbv beta iota.
  destruct (js_get im key); [reflexivity|].
  destruct (nameGroupMap (book s1)); reflexivity.
Qed.

Lemma lazy_getAccount k : lazy (getAccount svc normalizeName k).
Proof.
  destruct k as [key|]; [|apply lazy_ret].
  split; intros s.
  - intros Hr. rewrite getAccount_eq.
    destruct (ready_fields _ Hr) as (w & im & nm & gim & gnm & Hw & Hi & Hn & _).
    rewrite checkAccountsLoaded__noop by (rewrite ?Hw, ?Hi; reflexivity).
    rewrite Hi, Hn. destruct (js_get im key); eauto.
  - rewrite getAccount_eq.
    destruct (checkAccountsLoaded__cases s)
      as [[_ ->]|[(s1 & -> & Hr)|(e & s1 & -> & Hb)]]; [| |exact Hb].
    + destruct (idAccountMap (book s)) as [im|]; [|reflexivity].
      destruct (js_get im key); [left; reflexivity|].
      destruct (nameAccountMap (book s)); [left|]; reflexivity.
    + destruct (ready_fields _ Hr) as (w & im & nm & gim & gnm & Hw & Hi & Hn & _).
      rewrite Hi, Hn. destruct (js_get im key); right; exact Hr.
Qed.

Lemma lazy_getGroup k : lazy (getGroup svc normalizeName k).
Proof.
  destruct k as [key|]; [|apply lazy_ret].
  split; intros s.
  - intros Hr. rewrite getGroup_eq.
    destruct (ready_fields _ Hr) as (w & im & nm & gim & gnm & Hw & Hi & _ & Hgi & Hgn).
    rewrite checkAccountsLoaded__noop by (rewrite ?Hw, ?Hi; reflexivity).
    rewrite Hgi, Hgn. destruct (js_get gim key); eauto.
  - rewrite getGroup_eq.
    destruct (checkAccountsLoaded__cases s)
      as [[_ ->]|[(s1 & -> & Hr)|(e & s1 & -> & Hb)]]; [| |exact Hb].
    + destruct (idGroupMap (book s)) as [im|]; [|reflexivity].
      destruct (js_get im key); [left; reflexivity|].
      destruct (nameGroupMap (book s)); [left|]; reflexivity.
    + destruct (ready_fields _ Hr) as (w & im & nm & gim & gnm & Hw & Hi & _ & Hgi & Hgn).
      rewrite Hgi, Hgn. destruct (js_get gim key); right; exact Hr.
Qed.

Lemma getTimeZone_cases s :
  (isSome (wrapped (book s)) = true /\
   exists tz, getTimeZone svc normalizeName s = Returned tz s) \/
  (exists tz s1, getTimeZone svc normalizeName s = Returned tz s1 /\
                 ready (book s1) = true) \/
  (exists e s1, getTimeZone svc normalizeName s = Thrown e s1 /\ book s1 = book s).
Proof.
  unfold getTimeZone, bind, wrapped_field.
  destruct (isSome (wrapped (book s))) eqn:E.
  - left. split; [reflexivity|].
    rewrite (checkBookLoaded__noop s E). unfold deref. run_steps.
    destruct (wrapped (book s)); [|discriminate]. eexists. reflexivity.
  - right. destruct (wrapped (book s)) eqn:Ew; [discriminate|].
    rewrite (checkBookLoaded__load s Ew).
    destruct (fst (BookService_loadBookWrapped svc (book_id (book s)) (world s)))
      as [w|e] eqn:H.
    + left. destruct (gate_after_load s w H) as (s1 & -> & Hr & _).
      destruct (ready_fields _ Hr) as (w1 & _ & _ & _ & _ & Hw & _).
      unfold deref. run_steps. rewrite Hw. eexists _, _. split; [reflexivity|exact Hr].
    + right. rewrite (loadBook__fails s e H). eexists _, _. split; reflexivity.
Qed.

Lemma record_timeZone_settled timeZone s :
  isSome (wrapped (book s)) = true \/
  (exists z, timeZone = Some z /\ trim_is_empty z = false) ->
  exists tz, record_timeZone svc normalizeName timeZone s = Returned tz s.
Proof.
  intros [Hw|(z & -> & Hz)].
  - assert (exists tz, getTimeZone svc normalizeName s = Returned tz s) as Hg.
    { unfold getTimeZone. unfold bind at 1.
      rewrite (checkBookLoaded__noop s Hw). unfold wrapped_field, deref.
      run_steps. destruct (wrapped (book s)); [|discriminate].
      eexists. reflexivity. }
    unfold record_timeZone. destruct timeZone as [z|]; [|exact Hg].
    destruct (trim_is_empty z); [exact Hg|]. eexists. reflexivity.
  - unfold record_timeZone. rewrite Hz. eexists. reflexivity.
Qed.

Lemma record_timeZone_throws timeZone s e s1 :
  record_timeZone svc normalizeName timeZone s = Thrown e s1 -> book s1 = book s.
Proof.
  assert (forall e s1, getTimeZone svc normalizeName s = Thrown e s1 ->
                       book s1 = book s) as Hg.
  { intros e' s' E.
    destruct (getTimeZone_cases s)
      as [[_ (tz & E')]|[(tz & s2 & E' & _)|(e2 & s2 & E' & Hb)]];
      rewrite E' in E; try discriminate.
    injection E as _ <-. exact Hb. }
  unfold record_timeZone. destruct timeZone as [z|]; [|apply Hg].
  destruct (trim_is_empty z); [apply Hg|]. discriminate.
Qed.

Lemma getTimeZone_loaded s w :
  wrapped (book s) = Some w ->
  getTimeZone svc normalizeName s = Returned (bk_timeZone w) s.
Proof.
  intros Hw. unfold getTimeZone, wrapped_field, deref. unfold bind at 1.
  rewrite checkBookLoaded__noop by (rewrite Hw; reflexivity).
  run_steps. rewrite Hw. reflexivity.
Qed.

Lemma getTimeZone_unloaded s w :
  wrapped (book s) = None ->
  fst (BookService_loadBookWrapped svc (book_id (book s)) (world s)) = Ok w ->
  exists s1,
    getTimeZone svc normalizeName s = Returned (bk_timeZone w) s1 /\
    book_id (book s1) = book_id (book s) /\
    trace s1 = LoadBookWrapped (book_id (book s)) :: trace s /\
    wrapped (book s1) = Some w /\ ready (book s1) = true.
Proof.
  intros Hn H. destruct (loadBook__loads s w H) as (b & E & Hw & Hp & Hid & _).
  eexists. split; [|split; [|split; [|split]]].
  - unfold getTimeZone, wrapped_field, deref. unfold bind at 1.
    rewrite (checkBookLoaded__load s Hn), E. run_steps.
    unfold after_call. cbn [book]. rewrite Hw. reflexivity.
  - exact Hid.
  - reflexivity.
  - exact Hw.
  - unfold ready, after_call. cbn [book]. rewrite Hw, Hp. reflexivity.
Qed.

Lemma record_timeZone_blank timeZone (s : State W) :
  timeZone = None \/ (exists z, timeZone = Some z /\ trim_is_empty z = true) ->
  record_timeZone svc normalizeName timeZone s = getTimeZone svc normalizeName s.
Proof.
  intros [->|(z & -> & Hz)]; unfold record_timeZone; [|rewrite Hz]; reflexivity.
Qed.

(** ** Lookups on a book whose gate is shut *)

Lemma gate_shut s :
  gate_open (book s) = false ->
  checkAccountsLoaded_ svc normalizeName s = Returned tt s.
Proof.
  unfold gate_open. intros H. apply Bool.negb_false_iff in H.
  apply andb_true_iff in H. destruct H.
  apply checkAccountsLoaded__noop; assumption.
Qed.

Lemma still_ret {A} (a : A) : still (ret (W:=W) a).
Proof. intros s _. reflexivity. Qed.

Lemma still_throw {A} e : still (throw (W:=W) (A:=A) e).
Proof. intros s _. reflexivity. Qed.

Lemma still_bind {A B} (m : M W A) (k : A -> M W B) :
  still m -> (forall a, still (k a)) -> still (bind m k).
Proof.
  intros Hm Hk s Hg. unfold bind. specialize (Hm s Hg).
  destruct (m s) as [a s'|e s']; cbn [final] in Hm; subst s';
    [apply Hk; exact Hg|reflexivity].
Qed.

Lemma still_getAccount k : still (getAccount svc normalizeName k).
Proof.
  destruct k as [key|]; [|apply still_ret].
  intros s Hg. rewrite getAccount_eq, (gate_shut s Hg).
  destruct (idAccountMap (book s)) as [im|]; [|reflexivity].
  destruct (js_get im key); [reflexivity|].
  destruct (nameAccountMap (book s)); reflexivity.
Qed.

Lemma still_getGroup k : still (getGroup svc normalizeName k).
Proof.
  destruct k as [key|]; [|apply still_ret].
  intros s Hg. rewrite getGroup_eq, (gate_shut s Hg).
  destruct (idGroupMap (book s)) as [im|]; [|reflexivity].
  destruct (js_get im key); [reflexivity|].
  destruct (nameGroupMap (book s)); reflexivity.
Qed.

Lemma still_createAccounts_cells cells :
  forall account, still (createAccounts_cells svc normalizeName cells account).
Proof.
  induction cells as [|cell rest IH]; intros account;
    cbn [createAccounts_cells].
  - apply still_ret.
  - destruct (isType cell); [apply IH|].
    apply still_bind; [apply still_getGroup|].
    intros [[g|k]|]; [apply IH|apply still_throw|apply IH].
Qed.

Lemma still_createAccounts_rows rows :
  forall payloads, still (createAccounts_rows svc normalizeName rows payloads).
Proof.
  induction rows as [|row rest IH]; intros payloads;
    cbn [createAccounts_rows].
  - apply still_ret.
  - apply still_bind; [apply still_getAccount|].
    intros existing. destruct (isSome existing); [apply IH|].
    apply still_bind; [apply still_createAccounts_cells|].
    intros account'. apply IH.
Qed.

(** ** Mutations and what they invalidate *)

(** C1, as the code has it.  A successful [batchCreateTransactions] of a
    non-empty batch returns the created transactions bound to the book and
    drops exactly the two id indices, [idAccountMap] and [idGroupMap]: the
    two normalized-name indices, the accounts and groups sequences, the
    loaded snapshot and the saved queries are unchanged, and one remote call
    is made.  [record] does the same to the book its opening statement
    [record_timeZone] left.  That statement leaves the state alone when the
    book has a snapshot or the time zone passed is not blank; when no time
    zone or a blank one is passed to a book without a snapshot, it fetches
    the ledger and leaves the book loaded with it, all six collection fields
    present. *)
Theorem transactions_drop_id_indices :
  (forall (l : list Transaction) (s : State W) created,
      l <> [] ->
      fst (TransactionService_createTransactionsBatch svc (book_id (book s))
             (map tx_wrapped l) (world s)) = Ok created ->
      exists s',
        batchCreateTransactions svc l s =
          Returned (configureTransactions_ (book_id (book s))
                      (wrapObjects_Transaction created)) s' /\
        id_indices_dropped (book s) (book s') /\
        trace s' = CreateTransactionsBatch (book_id (book s)) (map tx_wrapped l)
                     :: trace s) /\
  (forall input timeZone (s s1 : State W) tz,
      record_timeZone svc normalizeName timeZone s = Returned tz s1 ->
      fst (TransactionService_record svc (book s1) input tz (world s1)) = Ok tt ->
      exists s',
        record svc normalizeName input timeZone s = Returned tt s' /\
        id_indices_dropped (book s1) (book s') /\
        trace s' = RecordDrafts (book_id (book s1)) input tz :: trace s1) /\
  (forall timeZone (s : State W),
      isSome (wrapped (book s)) = true \/
      (exists z, timeZone = Some z /\ trim_is_empty z = false) ->
      exists tz, record_timeZone svc normalizeName timeZone s = Returned tz s) /\
  (forall timeZone (s : State W) w,
      timeZone = None \/ (exists z, timeZone = Some z /\ trim_is_empty z = true) ->
      wrapped (book s) = None ->
      fst (BookService_loadBookWrapped svc (book_id (book s)) (world s)) = Ok w ->
      exists s1,
        record_timeZone svc normalizeName timeZone s = Returned (bk_timeZone w) s1 /\
        wrapped (book s1) = Some w /\ all_present (book s1) = true /\
        trace s1 = LoadBookWrapped (book_id (book s)) :: trace s).
Proof.
  split; [|split; [|split]].
  - intros l s created _ H. unfold batchCreateTransactions. run_steps.
    rewrite H. run_steps. eexists. split; [reflexivity|].
    split; [|reflexivity]. repeat split.
  - intros input timeZone s s1 tz Htz H. unfold record. unfold bind at 1.
    rewrite Htz. run_steps. rewrite H. run_steps.
    eexists. split; [reflexivity|]. split; [|reflexivity]. repeat split.
  - apply record_timeZone_settled.
  - intros timeZone s w Hb Hn H. rewrite (record_timeZone_blank timeZone s Hb).
    destruct (getTimeZone_unloaded s w Hn H) as (s1 & E & _ & Ht & Hw & Hr).
    exists s1. split; [exact E|]. split; [exact Hw|]. split; [|exact Ht].
    unfold ready in Hr. apply andb_true_iff in Hr. apply Hr.
Qed.

(** C2, as the code has it.  A successful [batchCreateAccounts] of a
    non-empty batch makes one remote call, returns the created accounts
    bound to the book, and drops the loaded snapshot [wrapped] only: the
    accounts and groups sequences and the four indices are left as they
    were (the next gate sees the missing snapshot and reloads them). *)
Theorem batchCreateAccounts_drops_snapshot :
  forall (l : list Account) (s : State W) created,
    l <> [] ->
    fst (AccountService_createAccounts svc (book_id (book s))
           (map acc_wrapped l) (world s)) = Ok created ->
    exists s',
      batchCreateAccounts svc l s =
        Returned (map (bind_Account (book_id (book s)))
                    (wrapObjects_Account created)) s' /\
      snapshot_dropped (book s) (book s') /\
      trace s' = CreateAccounts (book_id (book s)) (map acc_wrapped l) :: trace s.
Proof.
  intros l s created Hl H. unfold batchCreateAccounts, send_accounts.
  destruct l as [|a l]; [contradiction|].
  cbn [map List.length Nat.ltb Nat.leb] in *.
  run_steps. rewrite H. run_steps.
  eexists. split; [reflexivity|]. split; [|reflexivity]. repeat split.
Qed.

(** C3.  When the service call of a mutation fails, the error is thrown to
    the caller, the call is logged, and every field of the book is exactly
    as it was when the service was called.  [batchCreateTransactions],
    [batchCreateAccounts], [batchCreateGroups] and [createGroups] call their
    service first thing, so the book is as it was when the method was
    entered.  [record] and [createAccounts] call theirs after their opening
    statements ([record_timeZone], the loop [createAccounts_rows]) have
    returned: the book thrown back is the one those statements left.  They
    leave the state they found when the book has a snapshot or a non-blank
    time zone is passed ([record]), and when the gate of the collections is
    shut ([createAccounts]); and a failed fetch inside [record_timeZone] is
    thrown with every field of the book as [record] found it. *)
Theorem failed_mutation_keeps_cache :
  (forall (l : list Transaction) (s : State W) e,
      fst (TransactionService_createTransactionsBatch svc (book_id (book s))
             (map tx_wrapped l) (world s)) = Fail e ->
      batchCreateTransactions svc l s =
        Thrown e (after_call s
                    (CreateTransactionsBatch (book_id (book s)) (map tx_wrapped l))
                    (book s)
                    (snd (TransactionService_createTransactionsBatch svc
                            (book_id (book s)) (map tx_wrapped l) (world s))))) /\
  (forall (l : list Account) (s : State W) e,
      l <> [] ->
      fst (AccountService_createAccounts svc (book_id (book s))
             (map acc_wrapped l) (world s)) = Fail e ->
      batchCreateAccounts svc l s =
        Thrown e (after_call s
                    (CreateAccounts (book_id (book s)) (map acc_wrapped l))
                    (book s)
                    (snd (AccountService_createAccounts svc (book_id (book s))
                            (map acc_wrapped l) (world s))))) /\
  (forall (l : list Group) (s : State W) e,
      l <> [] ->
      fst (GroupService_createGroups svc (book_id (book s))
             (map grp_wrapped l) (world s)) = Fail e ->
      batchCreateGroups svc l s =
        Thrown e (after_call s
                    (CreateGroups (book_id (book s)) (map grp_wrapped l))
                    (book s)
                    (snd (GroupService_createGroups svc (book_id (book s))
                            (map grp_wrapped l) (world s))))) /\
  (forall (names : list string) (s : State W) e,
      names <> [] ->
      fst (GroupService_createGroups svc (book_id (book s))
             (map named_group names) (world s)) = Fail e ->
      createGroups svc names s =
        Thrown e (after_call s
                    (CreateGroups (book_id (book s)) (map named_group names))
                    (book s)
                    (snd (GroupService_createGroups svc (book_id (book s))
                            (map named_group names) (world s))))) /\
  (forall input timeZone (s : State W),
      (forall tz s1 e,
          record_timeZone svc normalizeName timeZone s = Returned tz s1 ->
          fst (TransactionService_record svc (book s1) input tz (world s1)) = Fail e ->
          record svc normalizeName input timeZone s =
            Thrown e (after_call s1 (RecordDrafts (book_id (book s1)) input tz)
                        (book s1)
                        (snd (TransactionService_record svc (book s1) input tz
                                (world s1))))) /\
      (forall e s1,
          record_timeZone svc normalizeName timeZone s = Thrown e s1 ->
          record svc normalizeName input timeZone s = Thrown e s1 /\
          book s1 = book s) /\
      (isSome (wrapped (book s)) = true \/
       (exists z, timeZone = Some z /\ trim_is_empty z = false) ->
       exists tz, record_timeZone svc normalizeName timeZone s = Returned tz s)) /\
  (forall rows (s : State W),
      (forall payloads s1 e,
          createAccounts_rows svc normalizeName rows [] s = Returned payloads s1 ->
          payloads <> [] ->
          fst (AccountService_createAccounts svc (book_id (book s1)) payloads
                 (world s1)) = Fail e ->
          createAccounts svc normalizeName rows s =
            Thrown e (after_call s1 (CreateAccounts (book_id (book s1)) payloads)
                        (book s1)
                        (snd (AccountService_createAccounts svc (book_id (book s1))
                                payloads (world s1))))) /\
      (forall payloads s1,
          gate_open (book s) = false ->
          createAccounts_rows svc normalizeName rows [] s = Returned payloads s1 ->
          s1 = s)).
Proof.
  split; [|split; [|split; [|split; [|split]]]].
  - intros l s e H. unfold batchCreateTransactions. run_steps. rewrite H.
    reflexivity.
  - intros l s e Hl H. unfold batchCreateAccounts, send_accounts.
    destruct l as [|a l]; [contradiction|].
    cbn [map List.length Nat.ltb Nat.leb] in *.
    run_steps. rewrite H. reflexivity.
  - intros l s e Hl H. unfold batchCreateGroups, send_groups.
    destruct l as [|g l]; [contradiction|].
    cbn [map List.length Nat.ltb Nat.leb] in *.
    run_steps. rewrite H. reflexivity.
  - intros names s e Hl H. unfold createGroups, send_groups.
    destruct names as [|n names]; [contradiction|].
    cbn [map List.length Nat.ltb Nat.leb] in *.
    run_steps. rewrite H. reflexivity.
  - intros input timeZone s. split; [|split].
    + intros tz s1 e Htz H. unfold record. unfold bind at 1. rewrite Htz.
      run_steps. rewrite H. reflexivity.
    + intros e s1 Htz. split.
      * unfold record. unfold bind at 1. rewrite Htz. reflexivity.
      * eapply record_timeZone_throws. exact Htz.
    + apply record_timeZone_settled.
  - intros rows s. split.
    + intros payloads s1 e Hrows Hp H. unfold createAccounts. unfold bind at 1.
      rewrite Hrows. unfold send_accounts.
      destruct payloads as [|a payloads]; [contradiction|].
      cbn [List.length Nat.ltb Nat.leb] in *.
      run_steps. rewrite H. reflexivity.
    + intros payloads s1 Hg Hrows.
      pose proof (still_createAccounts_rows rows [] s Hg) as H.
      rewrite Hrows in H. exact H.
Qed.

(** ** Lookups *)

(** C6, where the code departs from it.  The indices are plain objects, so
    a key that names a member of [Object.prototype] ([toString],
    [constructor], ...) is found in them even though no account or group was
    entered under it.  On a loaded book, [getAccount] of such a key that is
    no id in the id index returns the inherited member, which is neither an
    account nor [null], and does not fall back to the name index; a key that
    misses the id index returns the inherited member when its normalized
    form names one and is no name in the name index.  [getGroup] does the
    same on the group indices.  For every other key the lookup is as
    claimed: the entry of the id index, or, only when there is none, the
    entry of the name index under the normalized key, or [null]; all of it
    in the state the book was in, without a remote call. *)
Theorem lookup_finds_inherited_members :
  forall key (s : State W) im nm gim gnm,
    isSome (wrapped (book s)) = true ->
    idAccountMap (book s) = Some im -> nameAccountMap (book s) = Some nm ->
    idGroupMap (book s) = Some gim -> nameGroupMap (book s) = Some gnm ->
    (inherited_member key = true ->
     (im !! key = None ->
      getAccount svc normalizeName (Some key) s = Returned (Some (Inherited key)) s) /\
     (gim !! key = None ->
      getGroup svc normalizeName (Some key) s = Returned (Some (Inherited key)) s)) /\
    (inherited_member key = false ->
     inherited_member (normalizeName key) = true ->
     (im !! key = None -> nm !! normalizeName key = None ->
      getAccount svc normalizeName (Some key) s =
        Returned (Some (Inherited (normalizeName key))) s) /\
     (gim !! key = None -> gnm !! normalizeName key = None ->
      getGroup svc normalizeName (Some key) s =
        Returned (Some (Inherited (normalizeName key))) s)) /\
    (inherited_member key = false ->
     inherited_member (normalizeName key) = false ->
     getAccount svc normalizeName (Some key) s =
       Returned (match im !! key with
                 | Some a => Some (Own a)
                 | None => match nm !! normalizeName key with
                           | Some a => Some (Own a)
                           | None => None
                           end
                 end) s /\
     getGroup svc normalizeName (Some key) s =
       Returned (match gim !! key with
                 | Some g => Some (Own g)
                 | None => match gnm !! normalizeName key with
                           | Some g => Some (Own g)
                           | None => None
                           end
                 end) s).
Proof.
  intros key s im nm gim gnm Hw Hi Hn Hgi Hgn.
  assert (checkAccountsLoaded_ svc normalizeName s = Returned tt s) as E.
  { apply checkAccountsLoaded__noop; [exact Hw|rewrite Hi; reflexivity]. }
  rewrite getAccount_eq, getGroup_eq, E, Hi, Hn, Hgi, Hgn. unfold js_get.
  split; [|split].
  - intros Hk. split; intros ->; rewrite Hk; reflexivity.
  - intros Hk Hk'. split; intros -> ->; rewrite Hk, Hk'; reflexivity.
  - intros Hk Hk'. rewrite Hk, Hk'. split.
    + destruct (im !! key); [reflexivity|].
      destruct (nm !! normalizeName key); reflexivity.
    + destruct (gim !! key); [reflexivity|].
      destruct (gnm !! normalizeName key); reflexivity.
Qed.

(** C7.  [getAccount(null)] and [getGroup(null)] return [null] and leave the
    state, hence the log of remote calls, as it was, in every state. *)
Theorem lookup_null_returns_null :
  forall s : State W,
    getAccount svc normalizeName None s = Returned None s /\
    getGroup svc normalizeName None s = Returned None s.
Proof. intros s. split; reflexivity. Qed.

(** C8.  [batchCreateAccounts([])] and [batchCreateGroups([])] return the
    empty sequence and leave the state as it was: no remote call is logged,
    the backend is untouched and no field of the book changes. *)
Theorem empty_batch_is_noop :
  forall s : State W,
    batchCreateAccounts svc [] s = Returned [] s /\
    batchCreateGroups svc [] s = Returned [] s.
Proof. intros s. split; reflexivity. Qed.

(** ** The indices after a load *)

(** C9.  When the list handed to [configureAccounts_] holds two accounts
    [a] and [c], [c] after [a], with the same normalized-name key, and no
    account after [c] has that key, the name index maps the key to [c]: the
    later entry wins.  The method returns (no error), and, the identifiers
    of the list being distinct, the id index maps the id of every account of
    the list to that account.  [configureGroups_] does the same for groups,
    whose key is [normalizeName] of the group name. *)
Theorem name_index_last_write_wins :
  (forall (s : State W) l1 a l2 c l3,
      property_key (acc_normalizedName a) = property_key (acc_normalizedName c) ->
      (forall x, In x l3 ->
         property_key (acc_normalizedName x) <> property_key (acc_normalizedName c)) ->
      NoDup (map (fun x => property_key (acc_id x)) (l1 ++ a :: l2 ++ c :: l3)) ->
      exists s' im nm,
        configureAccounts_ (l1 ++ a :: l2 ++ c :: l3) s = Returned tt s' /\
        idAccountMap (book s') = Some im /\ nameAccountMap (book s') = Some nm /\
        nm !! property_key (acc_normalizedName a)
          = Some (mk_Account c (Some (book_id (book s)))) /\
        forall x, In x (l1 ++ a :: l2 ++ c :: l3) ->
          im !! property_key (acc_id x) = Some (mk_Account x (Some (book_id (book s))))) /\
  (forall (s : State W) l1 a l2 c l3,
      normalizeName (grp_name a) = normalizeName (grp_name c) ->
      (forall x, In x l3 -> normalizeName (grp_name x) <> normalizeName (grp_name c)) ->
      NoDup (map (fun x => property_key (grp_id x)) (l1 ++ a :: l2 ++ c :: l3)) ->
      exists s' im nm,
        configureGroups_ normalizeName (l1 ++ a :: l2 ++ c :: l3) s = Returned tt s' /\
        idGroupMap (book s') = Some im /\ nameGroupMap (book s') = Some nm /\
        nm !! normalizeName (grp_name a)
          = Some (mk_Group c (Some (book_id (book s)))) /\
        forall x, In x (l1 ++ a :: l2 ++ c :: l3) ->
          im !! property_key (grp_id x) = Some (mk_Group x (Some (book_id (book s))))).
Proof.
  split.
  - intros s l1 a l2 c l3 Hk Hlast Hnd.
    rewrite configureAccounts__eq. eexists _, _, _.
    split; [reflexivity|]. cbn [book idAccountMap nameAccountMap set_account_tier].
    split; [reflexivity|]. split; [reflexivity|].
    unfold wrapObjects_Account. rewrite map_map.
    set (f := fun w => bind_Account (book_id (book s)) (mk_Account w None)).
    split.
    + rewrite Hk.
      replace (l1 ++ a :: l2 ++ c :: l3)%list with ((l1 ++ a :: l2) ++ c :: l3)%list
        by (rewrite <- app_assoc; reflexivity).
      rewrite map_app. cbn [map].
      apply (index_by_last (fun x => property_key (Account_getNormalizedName x))
               (map f (l1 ++ a :: l2)) (map f l3) (f c)).
      intros y Hy. apply in_map_iff in Hy. destruct Hy as (x & <- & Hx).
      apply Hlast. exact Hx.
    + intros x Hx.
      apply (index_by_NoDup (fun y => property_key (Account_getId y))
               (map f (l1 ++ a :: l2 ++ c :: l3)) (f x)).
      * rewrite map_map. exact Hnd.
      * apply in_map. exact Hx.
  - intros s l1 a l2 c l3 Hk Hlast Hnd.
    rewrite configureGroups__eq. eexists _, _, _.
    split; [reflexivity|]. cbn [book idGroupMap nameGroupMap set_group_tier].
    split; [reflexivity|]. split; [reflexivity|].
    unfold wrapObjects_Group. rewrite map_map.
    set (f := fun w => bind_Group (book_id (book s)) (mk_Group w None)).
    split.
    + rewrite Hk.
      replace (l1 ++ a :: l2 ++ c :: l3)%list with ((l1 ++ a :: l2) ++ c :: l3)%list
        by (rewrite <- app_assoc; reflexivity).
      rewrite map_app. cbn [map].
      apply (index_by_last (fun g => normalizeName (Group_getName g))
               (map f (l1 ++ a :: l2)) (map f l3) (f c)).
      intros y Hy. apply in_map_iff in Hy. destruct Hy as (x & <- & Hx).
      apply Hlast. exact Hx.
    + intros x Hx.
      apply (index_by_NoDup (fun y => property_key (Group_getId y))
               (map f (l1 ++ a :: l2 ++ c :: l3)) (f x)).
      * rewrite map_map. exact Hnd.
      * apply in_map. exact Hx.
Qed.

(** ** The shape of the cache in every reachable state *)

Lemma coherent_set_wrapped v b : coherent b = true -> coherent (set_wrapped v b) = true.
Proof. intros H. exact H. Qed.

Lemma coherent_set_collection v b :
  coherent b = true -> coherent (set_collection v b) = true.
Proof. intros H. exact H. Qed.

Lemma coherent_loadBook_ :
  preserves (fun b => coherent b = true) (loadBook_ svc normalizeName).
Proof.
  intros s H.
  destruct (fst (BookService_loadBookWrapped svc (book_id (book s)) (world s)))
    as [w|e] eqn:E.
  - destruct (loadBook__loads s w E) as (b & -> & _ & Hp & _).
    cbn [final after_call book]. revert Hp.
    unfold coherent, all_present, collections_present.
    destruct (accounts b), (groups b), (idAccountMap b), (nameAccountMap b),
      (idGroupMap b), (nameGroupMap b); try discriminate; reflexivity.
  - rewrite (loadBook__fails s e E). exact H.
Qed.

Lemma coherent_clearAccountsCache :
  preserves (fun b => coherent b = true) (clearAccountsCache (W:=W)).
Proof.
  intros s. run_steps.
  unfold coherent, collections_present, collections_absent, isNull.
  cbn [set_idGroupMap set_idAccountMap accounts groups idAccountMap
       nameAccountMap idGroupMap nameGroupMap isSome].
  destruct (accounts (book s)), (groups (book s)), (idAccountMap (book s)),
    (nameAccountMap (book s)), (idGroupMap (book s)), (nameGroupMap (book s));
    try discriminate; reflexivity.
Qed.

Lemma getSavedQueries_cases s :
  (exists q, savedQueries (book s) = Some q /\
             getSavedQueries svc s = Returned (Some q) s) \/
  (savedQueries (book s) = None /\
   match fst (SavedQueryService_getSavedQueries svc (book_id (book s)) (world s)) with
   | Ok q =>
       getSavedQueries svc s =
       Returned (Some q)
         (after_call s (GetSavedQueries (book_id (book s)))
            (set_savedQueries (Some q) (book s))
            (snd (SavedQueryService_getSavedQueries svc (book_id (book s)) (world s))))
   | Fail e =>
       getSavedQueries svc s =
       Thrown e
         (after_call s (GetSavedQueries (book_id (book s))) (book s)
            (snd (SavedQueryService_getSavedQueries svc (book_id (book s)) (world s))))
   end).
Proof.
  unfold getSavedQueries. run_steps.
  destruct (savedQueries (book s)) as [q|] eqn:E.
  - left. exists q. split; [reflexivity|]. cbn. rewrite E. reflexivity.
  - right. split; [reflexivity|]. cbn [isNull isSome negb]. run_steps.
    destruct (fst (SavedQueryService_getSavedQueries svc (book_id (book s)) (world s)));
      reflexivity.
Qed.

Lemma coherent_getSavedQueries :
  preserves (fun b => coherent b = true) (getSavedQueries svc).
Proof.
  intros s H.
  destruct (getSavedQueries_cases s) as [(q & _ & ->)|[_ Hq]]; [exact H|].
  destruct (fst (SavedQueryService_getSavedQueries svc (book_id (book s)) (world s)));
    rewrite Hq; exact H.
Qed.

(** C4, as the code has it.  One successful load populates the two
    sequences and the four indices together.  Invalidation is not of the six
    together: [clearAccountsCache] drops the two id indices, both at once,
    and nothing else.  So in every state reachable from a new book the two
    id indices are present together or absent together, the sequences and
    the two name indices are present together or absent together, and the id
    indices are present only when the sequences and name indices are. *)
Theorem cache_shape_invariant :
  (forall id w backend s,
      reachable svc normalizeName (initial id w backend) s ->
      coherent (book s) = true) /\
  (forall (s : State W) w,
      fst (BookService_loadBookWrapped svc (book_id (book s)) (world s)) = Ok w ->
      exists s1, loadBook_ svc normalizeName s = Returned tt s1 /\
                 all_present (book s1) = true) /\
  (forall s : State W,
      exists s1, clearAccountsCache s = Returned tt s1 /\
                 id_indices_dropped (book s) (book s1) /\
                 trace s1 = trace s /\ world s1 = world s).
Proof.
  split; [|split].
  - intros id w backend s Hr.
    apply (preserves_reachable (fun b => coherent b = true)
             coherent_set_wrapped coherent_set_collection coherent_loadBook_
             coherent_clearAccountsCache coherent_getSavedQueries _ _ Hr).
    reflexivity.
  - intros s w H. destruct (loadBook__loads s w H) as (b & E & _ & Hp & _).
    eexists. split; [exact E|exact Hp].
  - intros s. eexists. split; [reflexivity|]. cbn [book trace world].
    split; [|split; reflexivity]. repeat split.
Qed.

(** ** Saved queries *)

Lemma savedQueries_loadBook_ q :
  preserves (fun b => savedQueries b = Some q) (loadBook_ svc normalizeName).
Proof.
  intros s H.
  destruct (fst (BookService_loadBookWrapped svc (book_id (book s)) (world s)))
    as [w|e] eqn:E.
  - destruct (loadBook__loads s w E) as (b & -> & _ & _ & _ & _ & Hq).
    cbn [final after_call book]. rewrite Hq. exact H.
  - rewrite (loadBook__fails s e E). exact H.
Qed.

Lemma savedQueries_getSavedQueries q :
  preserves (fun b => savedQueries b = Some q) (getSavedQueries svc).
Proof.
  intros s H.
  destruct (getSavedQueries_cases s) as [(q' & _ & ->)|[Hn _]]; [exact H|].
  rewrite Hn in H. discriminate.
Qed.

(** C10, as the code has it.  Once [savedQueries] holds a list, which it
    does after the first call of [getSavedQueries] that returns, every later
    call returns that list and leaves the state, hence the log of remote
    calls, as it was; and no public method, returning or throwing, ever
    resets the field.  A call that finds the field empty makes one remote
    call and stores its reply. *)
Theorem savedQueries_cached_for_good :
  (forall (s : State W) q,
      savedQueries (book s) = Some q ->
      getSavedQueries svc s = Returned (Some q) s) /\
  (forall (s s' : State W) q,
      savedQueries (book s) = Some q ->
      reachable svc normalizeName s s' ->
      savedQueries (book s') = Some q) /\
  (forall (s : State W) q,
      savedQueries (book s) = None ->
      fst (SavedQueryService_getSavedQueries svc (book_id (book s)) (world s)) = Ok q ->
      getSavedQueries svc s =
        Returned (Some q)
          (after_call s (GetSavedQueries (book_id (book s)))
             (set_savedQueries (Some q) (book s))
             (snd (SavedQueryService_getSavedQueries svc (book_id (book s))
                     (world s))))).
Proof.
  split; [|split].
  - intros s q H.
    destruct (getSavedQueries_cases s) as [(q' & Hq & E)|[Hn _]].
    + rewrite E. rewrite Hq in H. injection H as ->. reflexivity.
    + rewrite Hn in H. discriminate.
  - intros s s' q H Hr.
    apply (preserves_reachable (fun b => savedQueries b = Some q)) with (s0 := s);
      try assumption.
    + intros v b Hb. exact Hb.
    + intros v b Hb. exact Hb.
    + apply savedQueries_loadBook_.
    + intros s1 H1. exact H1.
    + apply savedQueries_getSavedQueries.
  - intros s q Hn H.
    destruct (getSavedQueries_cases s) as [(q' & Hq & _)|[_ E]].
    + rewrite Hq in Hn. discriminate.
    + rewrite H in E. exact E.
Qed.

(** ** Metadata accessors *)


Lemma quiet_ret {A} (a : A) : quiet (ret (W:=W) a).
Proof. intros s H. exists a, s. auto. Qed.

Lemma quiet_this : quiet (this (W:=W)).
Proof. intros s H. exists (book s), s. auto. Qed.

Lemma quiet_bind {A B} (m : M W A) (k : A -> M W B) :
  quiet m -> (forall a, quiet (k a)) -> quiet (bind m k).
Proof.
  intros Hm Hk s H. destruct (Hm s H) as (a & s1 & E1 & Ht1 & Hw1 & Hr1).
  destruct (Hk a s1 Hr1) as (b & s2 & E2 & Ht2 & Hw2 & Hr2).
  exists b, s2. unfold bind. rewrite E1, E2.
  repeat split; try assumption; congruence.
Qed.

Lemma quiet_checkBookLoaded_ : quiet (checkBookLoaded_ svc normalizeName).
Proof.
  intros s H. exists tt, s. repeat split; try assumption.
  apply checkBookLoaded__noop. destruct (ready_fields _ H) as (w & _ & _ & _ & _ & -> & _).
  reflexivity.
Qed.

Lemma quiet_checkAccountsLoaded_ : quiet (checkAccountsLoaded_ svc normalizeName).
Proof.
  intros s H. exists tt, s. repeat split; try assumption.
  destruct (ready_fields _ H) as (w & im & _ & _ & _ & Hw & Hi & _).
  apply checkAccountsLoaded__noop; [rewrite Hw|rewrite Hi]; reflexivity.
Qed.

Lemma quiet_wrapped_field {A} (f : bkper_Book -> A) :
  quiet (wrapped_field (W:=W) f).
Proof.
  intros s H. destruct (ready_fields _ H) as (w & _ & _ & _ & _ & Hw & _).
  exists (f w), s. repeat split; try assumption.
  unfold wrapped_field, deref. run_steps. rewrite Hw. reflexivity.
Qed.

Lemma quiet_set_collection v : quiet (assign (W:=W) (set_collection v)).
Proof. intros s H. eexists tt, _. split; [reflexivity|]. auto. Qed.

Lemma quiet_call_accessor a :
  (forall keys, a <> Get_property keys) -> quiet (call_accessor svc normalizeName a).
Proof.
  intros Hne.
  destruct a; try (exfalso; exact (Hne _ eq_refl)); cbn [call_accessor];
    unfold void, getName, getFractionDigits, getOwnerName, getPermission,
      getCollection, getDatePattern, getDecimalSeparator, getTimeZone,
      getTimeZoneOffset, getLastUpdateMs, getProperties;
    repeat first
      [ apply quiet_ret | apply quiet_this | apply quiet_checkBookLoaded_
      | apply quiet_checkAccountsLoaded_ | apply quiet_wrapped_field
      | apply quiet_set_collection
      | apply quiet_bind; [|intros ?]
      | match goal with
        | |- quiet (match ?x with _ => _ end) => destruct x
        end ].
Qed.

(** ** Calls that end without a fetch on a loaded book *)

Lemma silent_quiet {A} (m : M W A) : quiet m -> silent m.
Proof.
  intros Hm s H. destruct (Hm s H) as (a & s' & -> & Ht & Hw & Hr).
  cbn [final]. auto.
Qed.

Lemma silent_throw {A} e : silent (throw (W:=W) (A:=A) e).
Proof. intros s H. cbn [throw final]. auto. Qed.

Lemma silent_bind {A B} (m : M W A) (k : A -> M W B) :
  silent m -> (forall a, silent (k a)) -> silent (bind m k).
Proof.
  intros Hm Hk s H. unfold bind. specialize (Hm s H).
  destruct (m s) as [a s'|e s']; cbn [final] in Hm |- *; [|exact Hm].
  destruct Hm as (Ht & Hw & Hr). destruct (Hk a s' Hr) as (Ht' & Hw' & Hr').
  split; [congruence|]. split; [congruence|exact Hr'].
Qed.

Lemma silent_void {A} (m : M W A) : silent m -> silent (void m).
Proof.
  intros Hm. unfold void. apply silent_bind; [exact Hm|].
  intros a. apply silent_quiet, quiet_ret.
Qed.

Lemma silent_getProperty keys : silent (getProperty svc normalizeName keys).
Proof.
  unfold getProperty.
  apply silent_bind; [apply silent_quiet, quiet_checkBookLoaded_|intros _].
  apply silent_bind; [apply silent_quiet, quiet_wrapped_field|intros p].
  destruct (getProperty_loop p keys); [apply silent_throw|apply silent_quiet, quiet_ret].
Qed.

Lemma silent_call_accessor a : silent (call_accessor svc normalizeName a).
Proof.
  destruct a; try (apply silent_quiet, quiet_call_accessor; discriminate).
  cbn [call_accessor]. apply silent_void, silent_getProperty.
Qed.

Lemma silent_lazy {A} (m : M W A) : lazy m -> silent m.
Proof.
  intros [Hm _] s H. destruct (Hm s H) as [a ->]. cbn [final]. auto.
Qed.

Lemma fetchless_silent {A} (m : M W A) : silent m -> fetchless m.
Proof.
  intros Hm s H. destruct (Hm s H) as (Ht & _ & Hr).
  split; [unfold fetches; rewrite Ht; reflexivity|exact Hr].
Qed.

Lemma fetchless_bind {A B} (m : M W A) (k : A -> M W B) :
  fetchless m -> (forall a, fetchless (k a)) -> fetchless (bind m k).
Proof.
  intros Hm Hk s H. unfold bind. specialize (Hm s H).
  destruct (m s) as [a s'|e s']; cbn [final] in Hm |- *; [|exact Hm].
  destruct Hm as (Hf & Hr). destruct (Hk a s' Hr) as (Hf' & Hr').
  split; [congruence|exact Hr'].
Qed.

Lemma fetchless_void {A} (m : M W A) : fetchless m -> fetchless (void m).
Proof.
  intros Hm. unfold void. apply fetchless_bind; [exact Hm|].
  intros a. apply fetchless_silent, silent_quiet, quiet_ret.
Qed.

Lemma fetchless_remote {A} c (f : W -> Reply A * W) :
  is_fetch c = false -> fetchless (remote c f).
Proof.
  intros Hc s H. unfold remote.
  assert (forall t : list RemoteCall,
             List.length (List.filter is_fetch (c :: t)) =
             List.length (List.filter is_fetch t)) as Hcons.
  { intros t. cbn [List.filter]. rewrite Hc. reflexivity. }
  destruct (fst (f (world s))); cbn [final]; unfold fetches; cbn [trace book];
    rewrite Hcons; auto.
Qed.

Lemma fetchless_getId : fetchless (getId (W:=W)).
Proof.
  unfold getId. apply fetchless_silent, silent_quiet.
  apply quiet_bind; [apply quiet_this|]. intros b. apply quiet_ret.
Qed.

Lemma fetchless_getSavedQueries : fetchless (getSavedQueries svc).
Proof.
  unfold getSavedQueries.
  apply fetchless_bind; [apply fetchless_silent, silent_quiet, quiet_this|intros b].
  apply fetchless_bind.
  - destruct (isNull (savedQueries b));
      [|apply fetchless_silent, silent_quiet, quiet_ret].
    apply fetchless_bind; [apply fetchless_getId|intros id].
    apply fetchless_bind; [apply fetchless_remote; reflexivity|intros q].
    intros s H. cbn [assign final]. split; [reflexivity|exact H].
  - intros _.
    apply fetchless_bind; [apply fetchless_silent, silent_quiet, quiet_this|intros b'].
    apply fetchless_silent, silent_quiet, quiet_ret.
Qed.

Lemma fetchless_run o :
  invalidates o = false -> fetchless (run svc normalizeName o).
Proof.
  destruct o; cbn [invalidates run]; try discriminate; intros _.
  - apply fetchless_silent, silent_call_accessor.
  - apply (fetchless_silent _ (silent_call_accessor Get_datePattern)).
  - unfold formatValue_settings. apply fetchless_void.
    apply fetchless_bind; [|intros digits; apply fetchless_bind; [|intros separator]].
    + apply fetchless_silent, silent_quiet. unfold getFractionDigits.
      apply quiet_bind; [apply quiet_checkBookLoaded_|intros _].
      apply quiet_wrapped_field.
    + apply fetchless_silent, silent_quiet. unfold getDecimalSeparator.
      apply quiet_bind; [apply quiet_checkBookLoaded_|intros _].
      apply quiet_wrapped_field.
    + apply fetchless_silent, silent_quiet, quiet_ret.
  - apply (fetchless_silent _ (silent_call_accessor Get_fractionDigits)).
  - unfold audit.
    apply fetchless_bind; [apply fetchless_silent, silent_quiet, quiet_this|intros b].
    apply fetchless_remote. reflexivity.
  - apply fetchless_void, fetchless_silent, silent_quiet. unfold getAccounts.
    apply quiet_bind; [apply quiet_checkAccountsLoaded_|intros _].
    apply quiet_bind; [apply quiet_this|intros b]. apply quiet_ret.
  - apply fetchless_void, fetchless_silent, silent_lazy, lazy_getAccount.
  - apply fetchless_void, fetchless_silent, silent_quiet. unfold getGroups.
    apply quiet_bind; [apply quiet_checkAccountsLoaded_|intros _].
    apply quiet_bind; [apply quiet_this|intros b]. apply quiet_ret.
  - apply fetchless_void, fetchless_silent, silent_lazy, lazy_getGroup.
  - apply fetchless_void, fetchless_getSavedQueries.
  - unfold getBalancesReport. apply fetchless_void.
    apply fetchless_bind; [apply fetchless_getId|intros id].
    apply fetchless_bind; [apply fetchless_remote; reflexivity|intros balances].
    apply fetchless_silent, silent_quiet, quiet_ret.
  - unfold getTransaction. apply fetchless_void.
    apply fetchless_bind; [apply fetchless_getId|intros bid].
    apply fetchless_bind; [apply fetchless_remote; reflexivity|intros w].
    apply fetchless_silent, silent_quiet, quiet_ret.
Qed.

Lemma fetchless_run_all ops :
  Forall (fun o => invalidates o = false) ops ->
  forall s, ready (book s) = true ->
    fetches (run_all svc normalizeName ops s) = fetches s /\
    ready (book (run_all svc normalizeName ops s)) = true.
Proof.
  induction 1 as [|o ops Ho _ IH]; intros s Hr; cbn [run_all]; [auto|].
  destruct (fetchless_run o Ho s Hr) as (Hf & Hr').
  destruct (IH _ Hr') as (Hf' & Hr''). split; [congruence|exact Hr''].
Qed.

(** On a book without snapshot an accessor starts with one load; when the
    load returns the accessor goes on as on the loaded book. *)
Lemma call_accessor_unloaded a s :
  wrapped (book s) = None ->
  match fst (BookService_loadBookWrapped svc (book_id (book s)) (world s)) with
  | Ok _ =>
      exists s1, loadBook_ svc normalizeName s = Returned tt s1 /\
                 ready (book s1) = true /\
                 call_accessor svc normalizeName a s =
                 call_accessor svc normalizeName a s1
  | Fail e =>
      call_accessor svc normalizeName a s =
      Thrown e (after_call s (LoadBookWrapped (book_id (book s))) (book s)
                  (snd (BookService_loadBookWrapped svc (book_id (book s)) (world s))))
  end.
Proof.
  intros Hw.
  assert (checkAccountsLoaded_ svc normalizeName s = loadBook_ svc normalizeName s)
    as Hgate.
  { apply checkAccountsLoaded__load. rewrite Hw. reflexivity. }
  destruct (fst (BookService_loadBookWrapped svc (book_id (book s)) (world s)))
    as [w|e] eqn:H.
  - destruct (gate_after_load s w H) as (s1 & E & Hr & _).
    exists s1. split; [exact E|]. split; [exact Hr|].
    pose proof (checkBookLoaded__noop s1) as N1.
    pose proof (checkAccountsLoaded__noop s1) as N2.
    destruct (ready_fields _ Hr) as (w1 & im & _ & _ & _ & Hw1 & Hi1 & _).
    rewrite Hw1 in N1, N2. rewrite Hi1 in N2.
    specialize (N1 eq_refl). specialize (N2 eq_refl eq_refl).
    destruct a; cbn [call_accessor];
      unfold void, getName, getFractionDigits, getOwnerName, getPermission,
        getCollection, getDatePattern, getDecimalSeparator, getTimeZone,
        getTimeZoneOffset, getLastUpdateMs, getProperties, getProperty;
      unfold bind;
      rewrite ?(checkBookLoaded__load s Hw), ?Hgate, E, ?N1, ?N2; reflexivity.
  - pose proof (loadBook__fails s e H) as E.
    destruct a; cbn [call_accessor];
      unfold void, getName, getFractionDigits, getOwnerName, getPermission,
        getCollection, getDatePattern, getDecimalSeparator, getTimeZone,
        getTimeZoneOffset, getLastUpdateMs, getProperties, getProperty;
      unfold bind;
      rewrite ?(checkBookLoaded__load s Hw), ?Hgate, E; reflexivity.
Qed.

(** C5, as the code has it.  On a new book without snapshot, the first call
    of any metadata accessor makes exactly one remote call, the fetch of the
    ledger.  If that fetch succeeds, the book is left with the snapshot and
    all six collection fields, and the calls that follow make no further
    fetch, however many they are and in whatever order, as long as none of
    them is a mutation or [clearAccountsCache]: accessors (also one that
    throws on a property that is no string), lookups, [getAccounts],
    [getGroups], [getSavedQueries], [audit], reports.  (A fetch that fails
    leaves the book unloaded, and a mutation or [clearAccountsCache] opens
    the gate of [getCollection]: the next accessor may then fetch again.) *)
Theorem first_accessor_fetches_once :
  forall id (backend : W) a,
    trace (final (call_accessor svc normalizeName a (initial id None backend)))
      = [LoadBookWrapped id] /\
    fetches (final (call_accessor svc normalizeName a (initial id None backend))) = 1 /\
    (forall w,
        fst (BookService_loadBookWrapped svc id backend) = Ok w ->
        ready (book (final (call_accessor svc normalizeName a
                              (initial id None backend)))) = true /\
        forall ops,
          Forall (fun o => invalidates o = false) ops ->
          fetches (run_all svc normalizeName ops
                     (final (call_accessor svc normalizeName a
                               (initial id None backend)))) = 1).
Proof.
  intros id backend a.
  pose proof (call_accessor_unloaded a (initial id None backend) eq_refl) as H.
  cbn [initial book world new_Book book_id trace] in H.
  destruct (fst (BookService_loadBookWrapped svc id backend)) as [w|e] eqn:E.
  - destruct H as (s1 & El & Hr & ->).
    pose proof (loadBook__trace (initial id None backend)) as Ht.
    rewrite El in Ht. cbn [final initial trace book new_Book book_id] in Ht.
    destruct (silent_call_accessor a s1 Hr) as (Ht2 & _ & Hr2).
    assert (trace (final (call_accessor svc normalizeName a s1)) =
            [LoadBookWrapped id]) as Hs2 by congruence.
    assert (fetches (final (call_accessor svc normalizeName a s1)) = 1) as Hf2.
    { unfold fetches. rewrite Hs2. reflexivity. }
    split; [exact Hs2|]. split; [exact Hf2|].
    intros w' _. split; [exact Hr2|]. intros ops Hops.
    destruct (fetchless_run_all ops Hops _ Hr2) as (Hf & _). congruence.
  - rewrite H. cbn [final after_call trace initial].
    split; [reflexivity|]. split; [reflexivity|]. discriminate.
Qed.

(** * Beyond the claims *)

(** ** Reads through an open gate *)

Lemma loadBook__installs s w :
  fst (BookService_loadBookWrapped svc (book_id (book s)) (world s)) = Ok w ->
  exists b,
    loadBook_ svc normalizeName s =
    Returned tt (after_call s (LoadBookWrapped (book_id (book s))) b
                   (snd (BookService_loadBookWrapped svc (book_id (book s)) (world s)))) /\
    wrapped b = Some w /\
    accounts b = Some (fetched_accounts (book_id (book s)) w) /\
    groups b = Some (fetched_groups (book_id (book s)) w) /\
    idAccountMap b =
      Some (index_by account_id_key (fetched_accounts (book_id (book s)) w) ∅) /\
    nameAccountMap b =
      Some (index_by account_name_key (fetched_accounts (book_id (book s)) w) ∅) /\
    idGroupMap b =
      Some (index_by group_id_key (fetched_groups (book_id (book s)) w) ∅) /\
    nameGroupMap b =
      Some (index_by (fun g => normalizeName (Group_getName g))
              (fetched_groups (book_id (book s)) w) ∅) /\
    book_id b = book_id (book s) /\ collection b = collection (book s) /\
    savedQueries b = savedQueries (book s).
Proof.
  intros H. unfold loadBook_. run_steps. rewrite H. run_steps.
  rewrite configureGroups__eq. run_steps.
  rewrite configureAccounts__eq. run_steps.
  eexists. split; [reflexivity|]. repeat split.
Qed.

Lemma gate_open_load s :
  gate_open (book s) = true ->
  checkAccountsLoaded_ svc normalizeName s = loadBook_ svc normalizeName s.
Proof.
  intros H. apply checkAccountsLoaded__load.
  unfold gate_open in H. apply negb_true_iff in H. exact H.
Qed.

(** X1.  When the gate of the collections is open (no snapshot, or no
    account id index) and the fetch succeeds, every gated read makes exactly
    that one remote call and answers from the fetched ledger alone: whatever
    the sequences and name indices held before is not consulted.  A lookup
    reads the two indices built from the fetched ledger as plain objects
    ([lookup_in]: the id index under the key, then the name index under the
    normalized key, each with the members inherited from
    [Object.prototype]).  The ledger is one whose entities are entered as
    own properties ([own_keys]). *)
Theorem open_gate_reads_fetched_ledger :
  forall (s : State W) w key,
    gate_open (book s) = true ->
    fst (BookService_loadBookWrapped svc (book_id (book s)) (world s)) = Ok w ->
    own_keys normalizeName w = true ->
    exists s1,
      trace s1 = LoadBookWrapped (book_id (book s)) :: trace s /\
      wrapped (book s1) = Some w /\
      getAccounts svc normalizeName s =
        Returned (Some (fetched_accounts (book_id (book s)) w)) s1 /\
      getGroups svc normalizeName s =
        Returned (Some (fetched_groups (book_id (book s)) w)) s1 /\
      getAccount svc normalizeName (Some key) s =
        Returned (lookup_in
                    (index_by account_id_key (fetched_accounts (book_id (book s)) w) ∅)
                    (index_by account_name_key (fetched_accounts (book_id (book s)) w) ∅)
                    normalizeName key) s1 /\
      getGroup svc normalizeName (Some key) s =
        Returned (lookup_in
                    (index_by group_id_key (fetched_groups (book_id (book s)) w) ∅)
                    (index_by (fun g => normalizeName (Group_getName g))
                       (fetched_groups (book_id (book s)) w) ∅)
                    normalizeName key) s1.
Proof.
  intros s w key Hg H _.
  destruct (loadBook__installs s w H)
    as (b & E & Hw & Ha & Hgr & Hia & Hna & Hig & Hng & _).
  exists (after_call s (LoadBookWrapped (book_id (book s))) b
            (snd (BookService_loadBookWrapped svc (book_id (book s)) (world s)))).
  unfold after_call in *.
  split; [|split; [|split; [|split; [|split]]]].
  - reflexivity.
  - exact Hw.
  - unfold getAccounts. unfold bind at 1. rewrite (gate_open_load s Hg), E.
    run_steps. rewrite Ha. reflexivity.
  - unfold getGroups. unfold bind at 1. rewrite (gate_open_load s Hg), E.
    run_steps. rewrite Hgr. reflexivity.
  - rewrite getAccount_eq, (gate_open_load s Hg), E.
    cbn [book]. rewrite Hia, Hna. unfold lookup_in.
    destruct (js_get _ key); reflexivity.
  - rewrite getGroup_eq, (gate_open_load s Hg), E.
    cbn [book]. rewrite Hig, Hng. unfold lookup_in.
    destruct (js_get _ key); reflexivity.
Qed.

(** ** Mutations force the next read to reload *)

Ltac returned_only H :=
  revert H; run_steps;
  match goal with
  | |- context [fst ?call] => destruct (fst call); [|discriminate]
  end;
  run_steps; intros H; injection H; intros; subst.

(** X2.  Every mutation that returns, having called its service, leaves the
    gate of the collections open: [batchCreateTransactions] and [record]
    because the account id index is gone, the account and group creations
    because the snapshot is gone.  The next gated read therefore fetches the
    ledger again. *)
Theorem returned_mutation_opens_gate :
  (forall (l : list Transaction) (s : State W) r s',
      batchCreateTransactions svc l s = Returned r s' ->
      gate_open (book s') = true) /\
  (forall input timeZone (s : State W) s',
      record svc normalizeName input timeZone s = Returned tt s' ->
      gate_open (book s') = true) /\
  (forall (l : list Account) (s : State W) r s',
      l <> [] ->
      batchCreateAccounts svc l s = Returned r s' ->
      gate_open (book s') = true) /\
  (forall (l : list Group) (s : State W) r s',
      l <> [] ->
      batchCreateGroups svc l s = Returned r s' ->
      gate_open (book s') = true) /\
  (forall (names : list string) (s : State W) r s',
      names <> [] ->
      createGroups svc names s = Returned r s' ->
      gate_open (book s') = true) /\
  (forall rows (s s1 : State W) payloads r s',
      createAccounts_rows svc normalizeName rows [] s = Returned payloads s1 ->
      payloads <> [] ->
      createAccounts svc normalizeName rows s = Returned r s' ->
      gate_open (book s') = true).
Proof.
  split; [|split; [|split; [|split; [|split]]]].
  - intros l s r s' H. unfold batchCreateTransactions in H. returned_only H.
    unfold gate_open. cbn. apply negb_true_iff, andb_false_r.
  - intros input timeZone s s' H. unfold record in H. unfold bind at 1 in H.
    destruct (record_timeZone svc normalizeName timeZone s) as [tz s1|e s1];
      [|discriminate].
    returned_only H. unfold gate_open. cbn. apply negb_true_iff, andb_false_r.
  - intros l s r s' Hl H. unfold batchCreateAccounts, send_accounts in H.
    destruct l as [|a l]; [contradiction|].
    cbn [map List.length Nat.ltb Nat.leb] in H. returned_only H. reflexivity.
  - intros l s r s' Hl H. unfold batchCreateGroups, send_groups in H.
    destruct l as [|a l]; [contradiction|].
    cbn [map List.length Nat.ltb Nat.leb] in H. returned_only H. reflexivity.
  - intros names s r s' Hl H. unfold createGroups, send_groups in H.
    destruct names as [|a l]; [contradiction|].
    cbn [map List.length Nat.ltb Nat.leb] in H. returned_only H. reflexivity.
  - intros rows s s1 payloads r s' Hrows Hp H. unfold createAccounts in H.
    unfold bind at 1 in H. rewrite Hrows in H. unfold send_accounts in H.
    destruct payloads as [|a l]; [contradiction|].
    cbn [List.length Nat.ltb Nat.leb] in H. returned_only H. reflexivity.
Qed.

(** ** Accessors and the two gates *)

Lemma getCollection_through_open_gate s w :
  gate_open (book s) = true ->
  fst (BookService_loadBookWrapped svc (book_id (book s)) (world s)) = Ok w ->
  exists s1, loadBook_ svc normalizeName s = Returned tt s1 /\
             ready (book s1) = true /\
             call_accessor svc normalizeName Get_collection s =
             call_accessor svc normalizeName Get_collection s1.
Proof.
  intros Hg H. destruct (gate_after_load s w H) as (s1 & E & Hr & _).
  exists s1. split; [exact E|]. split; [exact Hr|].
  pose proof (checkAccountsLoaded__noop s1) as N.
  destruct (ready_fields _ Hr) as (w1 & im & _ & _ & _ & Hw1 & Hi1 & _).
  rewrite Hw1, Hi1 in N. specialize (N eq_refl eq_refl).
  cbn [call_accessor]. unfold void, getCollection, bind.
  rewrite (gate_open_load s Hg), E, N. reflexivity.
Qed.

(** X3.  The accessors gated by [checkBookLoaded_] need the snapshot only:
    with [wrapped] present they end in the very state they were called in,
    also after [clearAccountsCache] has dropped the id indices; all of them
    return, except that [getProperty] may throw there (on a key that names
    an inherited member).  [getCollection] is gated by
    [checkAccountsLoaded_] instead: with the snapshot present and the
    account id index absent it fetches the ledger again. *)
Theorem snapshot_accessors_need_only_snapshot :
  (forall a (s : State W),
      a <> Get_collection ->
      isSome (wrapped (book s)) = true ->
      final (call_accessor svc normalizeName a s) = s /\
      ((forall keys, a <> Get_property keys) ->
       call_accessor svc normalizeName a s = Returned tt s)) /\
  (forall s : State W,
      isSome (wrapped (book s)) = true ->
      idAccountMap (book s) = None ->
      trace (final (call_accessor svc normalizeName Get_collection s)) =
        LoadBookWrapped (book_id (book s)) :: trace s).
Proof.
  split.
  - intros a s Ha Hw.
    assert (match call_accessor svc normalizeName a s with
            | Returned _ s' => s' = s
            | Thrown _ s' => s' = s /\ exists keys, a = Get_property keys
            end) as Hc.
    { pose proof (checkBookLoaded__noop s Hw) as N.
      destruct (wrapped (book s)) as [w|] eqn:E; [|discriminate].
      destruct a as [| | | | | | | | | | |keys]; try contradiction;
        cbn [call_accessor];
        unfold void, getName, getFractionDigits, getOwnerName, getPermission,
          getDatePattern, getDecimalSeparator, getTimeZone, getTimeZoneOffset,
          getLastUpdateMs, getProperties, getProperty, wrapped_field, deref;
        unfold bind at 1 2; rewrite N; run_steps; rewrite E;
        try reflexivity.
      destruct (getProperty_loop (bk_properties w) keys) as [e|v];
        [split; [reflexivity|exists keys; reflexivity]|reflexivity]. }
    destruct (call_accessor svc normalizeName a s) as [[] s'|e s']; cbn [final].
    + subst s'. split; reflexivity.
    + destruct Hc as [-> (keys & ->)]. split; [reflexivity|].
      intros Hne. exfalso. exact (Hne keys eq_refl).
  - intros s Hw Hi.
    assert (gate_open (book s) = true) as Hg.
    { unfold gate_open. rewrite Hi. cbn. apply negb_true_iff, andb_false_r. }
    destruct (fst (BookService_loadBookWrapped svc (book_id (book s)) (world s)))
      as [w|e] eqn:H.
    + destruct (getCollection_through_open_gate s w Hg H) as (s1 & E & Hr & ->).
      destruct (quiet_call_accessor Get_collection ltac:(discriminate) s1 Hr)
        as ([] & s2 & -> & Ht & _).
      cbn [final]. rewrite Ht.
      pose proof (loadBook__trace s) as Hl. rewrite E in Hl. exact Hl.
    + cbn [call_accessor]. unfold void, getCollection, bind.
      rewrite (gate_open_load s Hg), (loadBook__fails s e H). reflexivity.
Qed.

(** ** Reads on a loaded book *)

Lemma reachable_coherent id w backend s :
  reachable svc normalizeName (initial id w backend) s -> coherent (book s) = true.
Proof.
  intros Hr.
  apply (preserves_reachable (fun b => coherent b = true)
           coherent_set_wrapped coherent_set_collection coherent_loadBook_
           coherent_clearAccountsCache coherent_getSavedQueries _ _ Hr).
  reflexivity.
Qed.

Lemma coherent_loaded_ready b :
  coherent b = true -> isSome (wrapped b) = true -> isSome (idAccountMap b) = true ->
  ready b = true.
Proof.
  unfold coherent, ready, all_present, collections_present, collections_absent, isNull.
  destruct (wrapped b), (accounts b), (groups b), (idAccountMap b),
    (nameAccountMap b), (idGroupMap b), (nameGroupMap b);
    try discriminate; reflexivity.
Qed.

Lemma getAccounts_ready s :
  ready (book s) = true ->
  getAccounts svc normalizeName s = Returned (accounts (book s)) s /\
  getGroups svc normalizeName s = Returned (groups (book s)) s.
Proof.
  intros Hr. destruct (quiet_checkAccountsLoaded_ s Hr) as ([] & s' & _).
  destruct (ready_fields _ Hr) as (w & im & _ & _ & _ & Hw & Hi & _).
  pose proof (checkAccountsLoaded__noop s) as N. rewrite Hw, Hi in N.
  specialize (N eq_refl eq_refl).
  unfold getAccounts, getGroups, bind. rewrite N. split; reflexivity.
Qed.

(** X4.  On a book reached through the public methods, once [getAccounts]
    (or [getGroups]) has returned, the book is fully loaded, and until the
    next mutation every read ([getAccounts], [getGroups], [getAccount],
    [getGroup]) returns in the state it was called in: no remote call, no
    error, no field written.  The sequence returned is the cached one. *)
Theorem reads_after_a_read_are_cached :
  forall id w backend (s s1 : State W) r,
    reachable svc normalizeName (initial id w backend) s ->
    (getAccounts svc normalizeName s = Returned r s1 \/
     exists r', getGroups svc normalizeName s = Returned r' s1) ->
    ready (book s1) = true /\
    getAccounts svc normalizeName s1 = Returned (accounts (book s1)) s1 /\
    getGroups svc normalizeName s1 = Returned (groups (book s1)) s1 /\
    (getAccounts svc normalizeName s = Returned r s1 -> r = accounts (book s1)) /\
    forall k, exists a g,
      getAccount svc normalizeName k s1 = Returned a s1 /\
      getGroup svc normalizeName k s1 = Returned g s1.
Proof.
  intros id w backend s s1 r Hreach Hread.
  pose proof (reachable_coherent id w backend s Hreach) as Hc.
  assert (checkAccountsLoaded_ svc normalizeName s = Returned tt s1) as Hgate.
  { destruct Hread as [H|[r' H]];
      [unfold getAccounts in H|unfold getGroups in H];
      unfold bind at 1 in H;
      destruct (checkAccountsLoaded_ svc normalizeName s) as [[] s2|e s2];
      try discriminate; revert H; run_steps; intros H; injection H as _ <-;
      reflexivity. }
  assert (ready (book s1) = true) as Hr.
  { destruct (checkAccountsLoaded__cases s)
      as [[Hl E]|[(s2 & E & Hr)|(e & s2 & E & _)]];
      rewrite E in Hgate; try discriminate; injection Hgate as <-.
    - apply andb_true_iff in Hl. destruct Hl. apply coherent_loaded_ready; assumption.
    - exact Hr. }
  destruct (getAccounts_ready s1 Hr) as [Ea Eg].
  split; [exact Hr|]. split; [exact Ea|]. split; [exact Eg|]. split.
  - intros H. unfold getAccounts in H. unfold bind at 1 in H. rewrite Hgate in H.
    revert H. run_steps. intros H. injection H as ->. reflexivity.
  - intros k. destruct (lazy_getAccount k) as [Ha _].
    destruct (lazy_getGroup k) as [Hg _].
    destruct (Ha s1 Hr) as [a E1]. destruct (Hg s1 Hr) as [g E2]. eauto.
Qed.

(** ** What the indices hold *)

Lemma index_by_sound {A} (key : A -> string) (l : list A) :
  forall (m : gmap string A) k a,
    index_by key l m !! k = Some a -> (In a l /\ key a = k) \/ m !! k = Some a.
Proof.
  induction l as [|x l IH]; intros m k a H; [right; exact H|].
  unfold index_by in *. cbn [fold_left] in H.
  destruct (IH _ _ _ H) as [[Hin Hk]|Hm].
  - left. split; [right; exact Hin|exact Hk].
  - destruct (decide (key x = k)) as [Heq|Hne].
    + rewrite <- Heq, lookup_insert_eq in Hm. injection Hm as <-.
      left. split; [left; reflexivity|exact Heq].
    + rewrite lookup_insert_ne in Hm by exact Hne. right. exact Hm.
Qed.

Lemma index_by_miss {A} (key : A -> string) (l : list A) k :
  (forall y, In y l -> key y <> k) -> index_by key l ∅ !! k = None.
Proof. intros H. rewrite index_by_later by exact H. apply lookup_empty. Qed.

Lemma getAccount_loaded s im nm key :
  isSome (wrapped (book s)) = true ->
  idAccountMap (book s) = Some im -> nameAccountMap (book s) = Some nm ->
  getAccount svc normalizeName (Some key) s =
    Returned (lookup_in im nm normalizeName key) s.
Proof.
  intros Hw Hi Hn. rewrite getAccount_eq.
  rewrite checkAccountsLoaded__noop by (rewrite ?Hi; assumption || reflexivity).
  rewrite Hi, Hn. unfold lookup_in. destruct (js_get im key); reflexivity.
Qed.

Lemma getGroup_loaded s im gim gnm key :
  isSome (wrapped (book s)) = true -> idAccountMap (book s) = Some im ->
  idGroupMap (book s) = Some gim -> nameGroupMap (book s) = Some gnm ->
  getGroup svc normalizeName (Some key) s =
    Returned (lookup_in gim gnm normalizeName key) s.
Proof.
  intros Hw Hi Hgi Hgn. rewrite getGroup_eq.
  rewrite checkAccountsLoaded__noop by (rewrite ?Hi; assumption || reflexivity).
  rewrite Hgi, Hgn. unfold lookup_in. destruct (js_get gim key); reflexivity.
Qed.

(** X5.  After a successful load through an open gate, every account of
    the fetched ledger is found again.  By its id, when the ids of the
    ledger's accounts are distinct.  And by any key that is not the id of an
    account of the ledger, names no inherited member, and whose
    normalization is the account's normalized name, when the normalized
    names are distinct.  Groups likewise, under the normalization of their
    names.  (A key that names an inherited member, such as [constructor],
    never reaches the name index.)  The ledger is one whose entities are
    entered as own properties ([own_keys]). *)
Theorem fetched_entities_are_found :
  forall (s : State W) w,
    gate_open (book s) = true ->
    fst (BookService_loadBookWrapped svc (book_id (book s)) (world s)) = Ok w ->
    own_keys normalizeName w = true ->
    exists s1,
      getAccounts svc normalizeName s =
        Returned (Some (fetched_accounts (book_id (book s)) w)) s1 /\
      (NoDup (map (fun x => property_key (acc_id x)) (bk_accounts w)) ->
       forall x, In x (bk_accounts w) ->
         getAccount svc normalizeName (Some (property_key (acc_id x))) s1 =
           Returned (Some (Own (mk_Account x (Some (book_id (book s)))))) s1) /\
      (NoDup (map (fun x => property_key (acc_normalizedName x)) (bk_accounts w)) ->
       forall x key, In x (bk_accounts w) ->
         normalizeName key = property_key (acc_normalizedName x) ->
         (forall y, In y (bk_accounts w) -> property_key (acc_id y) <> key) ->
         inherited_member key = false ->
         getAccount svc normalizeName (Some key) s1 =
           Returned (Some (Own (mk_Account x (Some (book_id (book s)))))) s1) /\
      (NoDup (map (fun x => property_key (grp_id x)) (bk_groups w)) ->
       forall x, In x (bk_groups w) ->
         getGroup svc normalizeName (Some (property_key (grp_id x))) s1 =
           Returned (Some (Own (mk_Group x (Some (book_id (book s)))))) s1) /\
      (NoDup (map (fun x => normalizeName (grp_name x)) (bk_groups w)) ->
       forall x key, In x (bk_groups w) ->
         normalizeName key = normalizeName (grp_name x) ->
         (forall y, In y (bk_groups w) -> property_key (grp_id y) <> key) ->
         inherited_member key = false ->
         getGroup svc normalizeName (Some key) s1 =
           Returned (Some (Own (mk_Group x (Some (book_id (book s)))))) s1).
Proof.
  intros s w Hg H _.
  destruct (loadBook__installs s w H)
    as (b & E & Hw & Ha & Hgr & Hia & Hna & Hig & Hng & _).
  set (self := book_id (book s)) in *.
  set (fa := fun x => bind_Account self (mk_Account x None)).
  set (fg := fun x => bind_Group self (mk_Group x None)).
  assert (fetched_accounts self w = map fa (bk_accounts w)) as Efa.
  { unfold fetched_accounts, wrapObjects_Account. apply map_map. }
  assert (fetched_groups self w = map fg (bk_groups w)) as Efg.
  { unfold fetched_groups, wrapObjects_Group. apply map_map. }
  exists (after_call s (LoadBookWrapped self) b
            (snd (BookService_loadBookWrapped svc self (world s)))).
  set (s1 := after_call _ _ _ _) in *.
  assert (isSome (wrapped (book s1)) = true) as Hs1 by (cbn; rewrite Hw; reflexivity).
  split; [|split; [|split; [|split]]].
  - unfold getAccounts. unfold bind at 1. rewrite (gate_open_load s Hg), E.
    run_steps. subst s1. cbn [after_call book]. rewrite Ha. reflexivity.
  - intros Hnd x Hx.
    rewrite (getAccount_loaded s1 _ _ _ Hs1 Hia Hna). unfold lookup_in, js_get.
    rewrite Efa.
    rewrite (index_by_NoDup account_id_key (map fa (bk_accounts w)) (fa x));
      [reflexivity| |apply in_map; exact Hx].
    rewrite map_map. exact Hnd.
  - intros Hnd x key Hx Hk Hid Hin.
    rewrite (getAccount_loaded s1 _ _ _ Hs1 Hia Hna). unfold lookup_in, js_get.
    rewrite Efa. rewrite index_by_miss.
    + rewrite Hin, Hk.
      rewrite (index_by_NoDup account_name_key (map fa (bk_accounts w)) (fa x));
        [reflexivity| |apply in_map; exact Hx].
      rewrite map_map. exact Hnd.
    + intros y Hy. apply in_map_iff in Hy. destruct Hy as (y0 & <- & Hy0).
      apply Hid. exact Hy0.
  - intros Hnd x Hx.
    rewrite (getGroup_loaded s1 _ _ _ _ Hs1 Hia Hig Hng). unfold lookup_in, js_get.
    rewrite Efg.
    rewrite (index_by_NoDup group_id_key (map fg (bk_groups w)) (fg x));
      [reflexivity| |apply in_map; exact Hx].
    rewrite map_map. exact Hnd.
  - intros Hnd x key Hx Hk Hid Hin.
    rewrite (getGroup_loaded s1 _ _ _ _ Hs1 Hia Hig Hng). unfold lookup_in, js_get.
    rewrite Efg. rewrite index_by_miss.
    + rewrite Hin, Hk.
      rewrite (index_by_NoDup (fun g => normalizeName (Group_getName g))
                 (map fg (bk_groups w)) (fg x));
        [reflexivity| |apply in_map; exact Hx].
      rewrite map_map. exact Hnd.
    + intros y Hy. apply in_map_iff in Hy. destruct Hy as (y0 & <- & Hy0).
      apply Hid. exact Hy0.
Qed.

Lemma final_void {A} (m : M W A) s : final (void m s) = final (m s).
Proof. unfold void, bind, ret. destruct (m s); reflexivity. Qed.

Lemma fetched_accounts_owner self w a :
  In a (fetched_accounts self w) -> acc_book a = Some self.
Proof.
  unfold fetched_accounts. intros H. apply in_map_iff in H.
  destruct H as (x & <- & _). reflexivity.
Qed.

Lemma fetched_groups_owner self w g :
  In g (fetched_groups self w) -> grp_book g = Some self.
Proof.
  unfold fetched_groups. intros H. apply in_map_iff in H.
  destruct H as (x & <- & _). reflexivity.
Qed.

Lemma index_sound_fresh {A} (key : A -> string) (owner : A -> option string)
    self (l : list A) :
  (forall a, In a l -> owner a = Some self) ->
  index_sound key owner self (Some (index_by key l ∅)) (Some l).
Proof.
  intros Ho m k a Hm Hk. injection Hm as <-.
  destruct (index_by_sound key l ∅ k a Hk) as [[Hin Hkey]|He].
  - split; [exact Hkey|]. split; [apply Ho; exact Hin|]. eauto.
  - rewrite lookup_empty in He. discriminate.
Qed.

Lemma index_sound_absent {A} (key : A -> string) owner self (seq : option (list A)) :
  index_sound key owner self None seq.
Proof. intros m k a H. discriminate. Qed.

Lemma indexed_loadBook_ :
  preserves (indexed normalizeName) (loadBook_ svc normalizeName).
Proof.
  intros s H.
  destruct (fst (BookService_loadBookWrapped svc (book_id (book s)) (world s)))
    as [w|e] eqn:E.
  - destruct (loadBook__installs s w E)
      as (b & -> & _ & Ha & Hg & Hia & Hna & Hig & Hng & Hid & _).
    cbn [final after_call book]. unfold indexed.
    rewrite Ha, Hg, Hia, Hna, Hig, Hng, Hid.
    split; [|split; [|split]]; apply index_sound_fresh;
      intros a; (apply fetched_accounts_owner || apply fetched_groups_owner).
  - rewrite (loadBook__fails s e E). exact H.
Qed.

Lemma indexed_clearAccountsCache :
  preserves (indexed normalizeName) (clearAccountsCache (W:=W)).
Proof.
  intros s (_ & Hn & _ & Hgn). run_steps. unfold indexed.
  cbn [set_idGroupMap set_idAccountMap accounts groups idAccountMap
       nameAccountMap idGroupMap nameGroupMap book_id].
  split; [|split; [|split]]; try apply index_sound_absent; assumption.
Qed.

Lemma indexed_getSavedQueries :
  preserves (indexed normalizeName) (getSavedQueries svc).
Proof.
  intros s H.
  destruct (getSavedQueries_cases s) as [(q & _ & ->)|[_ Hq]]; [exact H|].
  destruct (fst (SavedQueryService_getSavedQueries svc (book_id (book s)) (world s)));
    rewrite Hq; exact H.
Qed.

Lemma reachable_indexed id w backend s :
  reachable svc normalizeName (initial id w backend) s ->
  indexed normalizeName (book s) /\ book_id (book s) = id.
Proof.
  intros Hr. split.
  - apply (preserves_reachable (indexed normalizeName)) with (s0 := initial id w backend);
      try assumption.
    + intros v b Hb. exact Hb.
    + intros v b Hb. exact Hb.
    + apply indexed_loadBook_.
    + apply indexed_clearAccountsCache.
    + apply indexed_getSavedQueries.
    + split; [|split; [|split]]; apply index_sound_absent.
  - apply (preserves_reachable (fun b => book_id b = id)) with (s0 := initial id w backend);
      try assumption.
    + intros v b Hb. exact Hb.
    + intros v b Hb. exact Hb.
    + intros s1 H1.
      destruct (fst (BookService_loadBookWrapped svc (book_id (book s1)) (world s1)))
        as [w1|e] eqn:E.
      * destruct (loadBook__loads s1 w1 E) as (b & -> & _ & _ & Hid & _).
        cbn [final after_call book]. rewrite Hid. exact H1.
      * rewrite (loadBook__fails s1 e E). exact H1.
    + intros s1 H1. exact H1.
    + intros s1 H1.
      destruct (getSavedQueries_cases s1) as [(q & _ & ->)|[_ Hq]]; [exact H1|].
      destruct (fst (SavedQueryService_getSavedQueries svc (book_id (book s1)) (world s1)));
        rewrite Hq; exact H1.
    + reflexivity.
Qed.

Lemma js_get_cases {A} (m : gmap string A) k r :
  js_get m k = Some r ->
  match r with
  | Own a => m !! k = Some a
  | Inherited k' => k' = k /\ inherited_member k = true
  end.
Proof.
  unfold js_get. destruct (m !! k) as [a|].
  - intros H. injection H as <-. reflexivity.
  - destruct (inherited_member k) eqn:E; [|discriminate].
    intros H. injection H as <-. split; reflexivity.
Qed.

(** X6.  On a book reached through the public methods, in front of a
    backend whose ledgers are entered as own properties, an account that a
    lookup returns is never a foreign one: its id is the key or its
    normalized name is the normalized key, it is bound to this book, and it
    is an element of the accounts sequence the book holds.  The same for
    groups.  The only other thing a lookup returns is a member inherited
    from [Object.prototype], under the key or under the normalized key. *)
Theorem lookup_returns_indexed_entity :
  forall id w backend (s : State W) key,
    own_keys_backend svc normalizeName ->
    reachable svc normalizeName (initial id w backend) s ->
    (forall r s1,
        getAccount svc normalizeName (Some key) s = Returned (Some r) s1 ->
        match r with
        | Own a =>
            (account_id_key a = key \/ account_name_key a = normalizeName key) /\
            acc_book a = Some id /\
            exists l, accounts (book s1) = Some l /\ In a l
        | Inherited k =>
            (k = key \/ k = normalizeName key) /\ inherited_member k = true
        end) /\
    (forall r s1,
        getGroup svc normalizeName (Some key) s = Returned (Some r) s1 ->
        match r with
        | Own g =>
            (group_id_key g = key \/
             normalizeName (Group_getName g) = normalizeName key) /\
            grp_book g = Some id /\
            exists l, groups (book s1) = Some l /\ In g l
        | Inherited k =>
            (k = key \/ k = normalizeName key) /\ inherited_member k = true
        end).
Proof.
  intros id w backend s key _ Hreach. split.
  - intros r s1 H.
    assert (reachable svc normalizeName (initial id w backend) s1) as Hr1.
    { replace s1 with (final (run svc normalizeName (Call_getAccount (Some key)) s)).
      - apply reachable_call. exact Hreach.
      - cbn [run]. rewrite final_void, H. reflexivity. }
    destruct (reachable_indexed id w backend s1 Hr1) as ((Hi & Hn & _) & Hid).
    rewrite Hid in Hi, Hn.
    rewrite getAccount_eq in H.
    destruct (checkAccountsLoaded_ svc normalizeName s) as [[] s2|e s2];
      [|discriminate].
    destruct (idAccountMap (book s2)) as [im|] eqn:Eim; [|discriminate].
    destruct (js_get im key) as [r'|] eqn:Ek.
    + injection H as -> ->. pose proof (js_get_cases _ _ _ Ek) as Hc.
      destruct r as [a|k].
      * destruct (Hi im key a Eim Hc) as (Hk & Ho & Hl). auto.
      * destruct Hc as [-> Hc]. auto.
    + destruct (nameAccountMap (book s2)) as [nm|] eqn:Enm; [|discriminate].
      injection H as Hk ->. pose proof (js_get_cases _ _ _ Hk) as Hc.
      destruct r as [a|k].
      * destruct (Hn nm _ a Enm Hc) as (Hk' & Ho & Hl). auto.
      * destruct Hc as [-> Hc]. auto.
  - intros r s1 H.
    assert (reachable svc normalizeName (initial id w backend) s1) as Hr1.
    { replace s1 with (final (run svc normalizeName (Call_getGroup (Some key)) s)).
      - apply reachable_call. exact Hreach.
      - cbn [run]. rewrite final_void, H. reflexivity. }
    destruct (reachable_indexed id w backend s1 Hr1) as ((_ & _ & Hi & Hn) & Hid).
    rewrite Hid in Hi, Hn.
    rewrite getGroup_eq in H.
    destruct (checkAccountsLoaded_ svc normalizeName s) as [[] s2|e s2];
      [|discriminate].
    destruct (idGroupMap (book s2)) as [im|] eqn:Eim; [|discriminate].
    destruct (js_get im key) as [r'|] eqn:Ek.
    + injection H as -> ->. pose proof (js_get_cases _ _ _ Ek) as Hc.
      destruct r as [g|k].
      * destruct (Hi im key g Eim Hc) as (Hk & Ho & Hl). auto.
      * destruct Hc as [-> Hc]. auto.
    + destruct (nameGroupMap (book s2)) as [nm|] eqn:Enm; [|discriminate].
      injection H as Hk ->. pose proof (js_get_cases _ _ _ Hk) as Hc.
      destruct r as [g|k].
      * destruct (Hn nm _ g Enm Hc) as (Hk' & Ho & Hl). auto.
      * destruct Hc as [-> Hc]. auto.
Qed.

(** ** Reads that throw *)

Lemma gate_throws s e s1 :
  checkAccountsLoaded_ svc normalizeName s = Thrown e s1 ->
  gate_open (book s) = true /\
  fst (BookService_loadBookWrapped svc (book_id (book s)) (world s)) = Fail e /\
  s1 = after_call s (LoadBookWrapped (book_id (book s))) (book s)
         (snd (BookService_loadBookWrapped svc (book_id (book s)) (world s))).
Proof.
  intros H.
  destruct (gate_open (book s)) eqn:Hg.
  - split; [reflexivity|]. rewrite (gate_open_load s Hg) in H.
    destruct (fst (BookService_loadBookWrapped svc (book_id (book s)) (world s)))
      as [w|e'] eqn:E.
    + destruct (loadBook__loads s w E) as (b & E' & _). rewrite E' in H. discriminate.
    + rewrite (loadBook__fails s e' E) in H. injection H as -> <-. auto.
  - unfold gate_open in Hg. apply negb_false_iff, andb_true_iff in Hg.
    destruct Hg as [Hw Hi]. rewrite (checkAccountsLoaded__noop s Hw Hi) in H.
    discriminate.
Qed.

(** X7.  On a book reached through the public methods, a lookup that
    throws throws the error of the ledger fetch and nothing else: the gate
    was open, the fetch failed with that very error, one remote call was
    logged and no field of the book changed.  In particular no lookup ever
    fails on a missing index, although the gate tests the account id index
    only. *)
Theorem lookup_throws_only_the_fetch_error :
  forall id w backend (s s1 : State W) key e,
    reachable svc normalizeName (initial id w backend) s ->
    (getAccount svc normalizeName (Some key) s = Thrown e s1 \/
     getGroup svc normalizeName (Some key) s = Thrown e s1) ->
    gate_open (book s) = true /\
    fst (BookService_loadBookWrapped svc (book_id (book s)) (world s)) = Fail e /\
    book s1 = book s /\
    trace s1 = LoadBookWrapped (book_id (book s)) :: trace s.
Proof.
  intros id w backend s s1 key e Hreach H.
  pose proof (reachable_coherent id w backend s Hreach) as Hc.
  assert (checkAccountsLoaded_ svc normalizeName s = Thrown e s1) as Hgate.
  { destruct (checkAccountsLoaded__cases s)
      as [[Hl E]|[(s2 & E & Hr)|(e2 & s2 & E & _)]].
    - apply andb_true_iff in Hl. destruct Hl as [Hw Hi].
      destruct (coherent_fields _ Hc Hi) as (im & nm & gim & gnm & Ei & En & Egi & Egn).
      destruct H as [H|H].
      + rewrite (getAccount_loaded s im nm key Hw Ei En) in H. discriminate.
      + rewrite (getGroup_loaded s im gim gnm key Hw Ei Egi Egn) in H. discriminate.
    - destruct (ready_fields _ Hr) as (w1 & im & nm & gim & gnm & _ & Ei & En & Egi & Egn).
      destruct H as [H|H];
        [rewrite getAccount_eq, E, Ei, En in H|rewrite getGroup_eq, E, Egi, Egn in H];
        destruct (js_get _ key); discriminate.
    - destruct H as [H|H];
        [rewrite getAccount_eq, E in H|rewrite getGroup_eq, E in H];
        injection H as <- <-; exact E. }
  destruct (gate_throws s e s1 Hgate) as (Hg & Hf & ->).
  repeat split; assumption.
Qed.

(** ** Properties *)

Lemma getProperty_loop_skips p pre rest :
  (forall k, In k pre -> property_read p k = Skipped) ->
  getProperty_loop p (pre ++ rest) = getProperty_loop p rest.
Proof.
  induction pre as [|key pre IH]; intros Hpre; [reflexivity|].
  cbn [app getProperty_loop].
  pose proof (Hpre key (or_introl eq_refl)) as Hk. unfold property_read in Hk.
  assert (getProperty_loop p (pre ++ rest) = getProperty_loop p rest) as IH'.
  { apply IH. intros k Hin. apply Hpre. right. exact Hin. }
  destruct p as [m|]; [|exact IH'].
  destruct (js_get m key) as [[v|k']|]; [|discriminate|exact IH'].
  destruct (trim_is_empty v); [exact IH'|discriminate].
Qed.

Lemma getProperty_eq s w keys :
  wrapped (book s) = Some w ->
  getProperty svc normalizeName keys s =
  match getProperty_loop (bk_properties w) keys with
  | inr value => Returned value s
  | inl e => Thrown e s
  end.
Proof.
  intros Hw. unfold getProperty, wrapped_field, deref. unfold bind at 1.
  rewrite checkBookLoaded__noop by (rewrite Hw; reflexivity).
  run_steps. rewrite Hw.
  destruct (getProperty_loop (bk_properties w) keys); reflexivity.
Qed.

(** X8.  On a book with a snapshot, [getProperty] makes no remote call and
    leaves the state as it is.  It goes through the given keys, skipping
    those whose property is absent or blank (white space only, as [trim]
    has it), up to the first key that is not skipped: when that key has a
    value of its own, the value is returned; when it names a member
    inherited from [Object.prototype] (as [constructor] does), [trim] is not
    a method of what is read and a [TypeError] is thrown.  When every key is
    skipped, in particular for no keys and for a ledger without properties,
    [null] is returned. *)
Theorem getProperty_first_usable :
  forall (s : State W) w keys,
    wrapped (book s) = Some w ->
    (forall pre key post v,
        keys = (pre ++ key :: post)%list ->
        (forall k, In k pre -> property_read (bk_properties w) k = Skipped) ->
        property_read (bk_properties w) key = Usable v ->
        getProperty svc normalizeName keys s = Returned (Some v) s) /\
    (forall pre key post,
        keys = (pre ++ key :: post)%list ->
        (forall k, In k pre -> property_read (bk_properties w) k = Skipped) ->
        property_read (bk_properties w) key = Faulty ->
        getProperty svc normalizeName keys s =
          Thrown (TypeError "value.trim is not a function") s) /\
    ((forall k, In k keys -> property_read (bk_properties w) k = Skipped) ->
     getProperty svc normalizeName keys s = Returned None s).
Proof.
  intros s w keys Hw. rewrite (getProperty_eq s w keys Hw).
  split; [|split].
  - intros pre key post v -> Hpre Hk.
    rewrite (getProperty_loop_skips _ pre (key :: post) Hpre).
    cbn [getProperty_loop]. unfold property_read in Hk.
    destruct (bk_properties w) as [m|]; [|discriminate].
    destruct (js_get m key) as [[v'|k']|]; try discriminate.
    destruct (trim_is_empty v'); [discriminate|]. injection Hk as ->. reflexivity.
  - intros pre key post -> Hpre Hk.
    rewrite (getProperty_loop_skips _ pre (key :: post) Hpre).
    cbn [getProperty_loop]. unfold property_read in Hk.
    destruct (bk_properties w) as [m|]; [|discriminate].
    destruct (js_get m key) as [[v'|k']|]; try discriminate; [|reflexivity].
    destruct (trim_is_empty v'); discriminate.
  - intros Hall. rewrite <- (app_nil_r keys).
    rewrite (getProperty_loop_skips _ keys [] Hall). reflexivity.
Qed.

(** ** The rows of [createAccounts] *)










(** ** [createAccount] *)

Lemma getAccount_through_open_gate s w key :
  gate_open (book s) = true ->
  fst (BookService_loadBookWrapped svc (book_id (book s)) (world s)) = Ok w ->
  exists s1,
    trace s1 = LoadBookWrapped (book_id (book s)) :: trace s /\
    wrapped (book s1) = Some w /\
    getAccount svc normalizeName (Some key) s =
      Returned (lookup_in
                  (index_by account_id_key (fetched_accounts (book_id (book s)) w) ∅)
                  (index_by account_name_key (fetched_accounts (book_id (book s)) w) ∅)
                  normalizeName key) s1.
Proof.
  intros Hg H.
  destruct (loadBook__installs s w H) as (b & E & Hw & _ & _ & Hia & Hna & _).
  exists (after_call s (LoadBookWrapped (book_id (book s))) b
            (snd (BookService_loadBookWrapped svc (book_id (book s)) (world s)))).
  unfold after_call in *. split; [reflexivity|]. split; [exact Hw|].
  rewrite getAccount_eq, (gate_open_load s Hg), E.
  cbn [book]. rewrite Hia, Hna. unfold lookup_in.
  destruct (js_get _ key); reflexivity.
Qed.

(** X11.  The deprecated [createAccount] ignores what the creation service
    replies: when the creation fails its error is thrown and no field of the
    book changes; when it succeeds the snapshot is dropped and the ledger is
    fetched again, and the result is the lookup of the name in the ledger
    fetched, after exactly two remote calls.  The lookup reads the two
    indices as plain objects ([lookup_in]): the name as an id first, then as
    a normalized name, and a name such as [constructor] that is no id gets
    the inherited member instead of the account.  The ledger fetched is one
    whose entities are entered as own properties ([own_keys]). *)
Theorem createAccount_answers_from_refetched_ledger :
  forall (s : State W) name group description,
    (forall e,
        fst (AccountService_createAccountV2 svc (book_id (book s)) name group
               description (world s)) = Fail e ->
        createAccount svc normalizeName name group description s =
          Thrown e (after_call s (CreateAccountV2 (book_id (book s)) name group description)
                      (book s)
                      (snd (AccountService_createAccountV2 svc (book_id (book s)) name
                              group description (world s))))) /\
    (forall created w,
        fst (AccountService_createAccountV2 svc (book_id (book s)) name group
               description (world s)) = Ok created ->
        fst (BookService_loadBookWrapped svc (book_id (book s))
               (snd (AccountService_createAccountV2 svc (book_id (book s)) name group
                       description (world s)))) = Ok w ->
        own_keys normalizeName w = true ->
        exists s1,
          createAccount svc normalizeName name group description s =
            Returned (lookup_in
                        (index_by account_id_key
                           (fetched_accounts (book_id (book s)) w) ∅)
                        (index_by account_name_key
                           (fetched_accounts (book_id (book s)) w) ∅)
                        normalizeName name) s1 /\
          wrapped (book s1) = Some w /\
          trace s1 = LoadBookWrapped (book_id (book s))
                       :: CreateAccountV2 (book_id (book s)) name group description
                       :: trace s).
Proof.
  intros s name group description. split.
  - intros e H. unfold createAccount. run_steps. rewrite H. reflexivity.
  - intros created w H Hl _. unfold createAccount. run_steps. rewrite H. run_steps.
    set (s' := mk_State (set_wrapped None (book s)) _ _).
    destruct (getAccount_through_open_gate s' w name eq_refl Hl)
      as (s1 & Ht & Hw & E).
    exists s1. split; [exact E|]. split; [exact Hw|exact Ht].
Qed.

(** ** Empty inputs *)

(** X12.  The two deprecated creations are no-ops on an empty input, like
    the two batch creations: [createGroups([])] and [createAccounts([])]
    return [[]] with the state unchanged (no load, no remote call).
    [batchCreateTransactions([])] has no such guard: it calls the
    transaction service with an empty payload list, and when the call
    returns the account id index is dropped. *)
Theorem empty_inputs :
  forall s : State W,
    createGroups svc [] s = Returned [] s /\
    createAccounts svc normalizeName [] s = Returned [] s /\
    trace (final (batchCreateTransactions svc [] s)) =
      CreateTransactionsBatch (book_id (book s)) [] :: trace s /\
    (forall r s', batchCreateTransactions svc [] s = Returned r s' ->
                  idAccountMap (book s') = None /\ idGroupMap (book s') = None).
Proof.
  intros s. split; [reflexivity|]. split; [reflexivity|]. split.
  - unfold batchCreateTransactions. run_steps. cbn [map].
    destruct (fst (TransactionService_createTransactionsBatch svc (book_id (book s)) []
                     (world s))); reflexivity.
  - intros r s' H. unfold batchCreateTransactions in H. returned_only H.
    split; reflexivity.
Qed.

(** ** The time zone of [record] *)

(** X13.  [record] sends a non-blank time zone as given, without reading
    the book: no fetch even on an unloaded book.  With no time zone, or a
    blank one, it sends the time zone of the ledger: the cached one when a
    snapshot is present, otherwise the one of the ledger it fetches first.
    When that fetch fails the record service is not called. *)
Theorem record_time_zone :
  (forall input z (s : State W),
      trim_is_empty z = false ->
      trace (final (record svc normalizeName input (Some z) s)) =
        RecordDrafts (book_id (book s)) input z :: trace s) /\
  (forall input timeZone (s : State W) w,
      timeZone = None \/ (exists z, timeZone = Some z /\ trim_is_empty z = true) ->
      wrapped (book s) = Some w ->
      trace (final (record svc normalizeName input timeZone s)) =
        RecordDrafts (book_id (book s)) input (bk_timeZone w) :: trace s) /\
  (forall input timeZone (s : State W) w,
      timeZone = None \/ (exists z, timeZone = Some z /\ trim_is_empty z = true) ->
      wrapped (book s) = None ->
      fst (BookService_loadBookWrapped svc (book_id (book s)) (world s)) = Ok w ->
      trace (final (record svc normalizeName input timeZone s)) =
        RecordDrafts (book_id (book s)) input (bk_timeZone w)
          :: LoadBookWrapped (book_id (book s)) :: trace s) /\
  (forall input timeZone (s : State W) e,
      timeZone = None \/ (exists z, timeZone = Some z /\ trim_is_empty z = true) ->
      wrapped (book s) = None ->
      fst (BookService_loadBookWrapped svc (book_id (book s)) (world s)) = Fail e ->
      record svc normalizeName input timeZone s =
        Thrown e (after_call s (LoadBookWrapped (book_id (book s))) (book s)
                    (snd (BookService_loadBookWrapped svc (book_id (book s)) (world s))))).
Proof.
  assert (forall timeZone (s : State W),
             timeZone = None \/ (exists z, timeZone = Some z /\ trim_is_empty z = true) ->
             record_timeZone svc normalizeName timeZone s =
             getTimeZone svc normalizeName s) as Hblank.
  { intros timeZone s [->|(z & -> & Hz)]; unfold record_timeZone;
      [|rewrite Hz]; reflexivity. }
  split; [|split; [|split]].
  - intros input z s Hz. unfold record, record_timeZone. rewrite Hz. run_steps.
    destruct (fst (TransactionService_record svc (book s) input z (world s)));
      reflexivity.
  - intros input timeZone s w Hb Hw. unfold record. unfold bind at 1.
    rewrite (Hblank timeZone s Hb), (getTimeZone_loaded s w Hw). run_steps.
    destruct (fst (TransactionService_record svc (book s) input (bk_timeZone w)
                     (world s))); reflexivity.
  - intros input timeZone s w Hb Hn H. unfold record. unfold bind at 1.
    rewrite (Hblank timeZone s Hb).
    destruct (getTimeZone_unloaded s w Hn H) as (s1 & -> & Hid & Ht & _).
    run_steps. rewrite Hid, Ht.
    destruct (fst (TransactionService_record svc (book s1) input (bk_timeZone w)
                     (world s1))); reflexivity.
  - intros input timeZone s e Hb Hn H. unfold record. unfold bind at 1.
    rewrite (Hblank timeZone s Hb). unfold getTimeZone. unfold bind at 1.
    rewrite (checkBookLoaded__load s Hn), (loadBook__fails s e H). reflexivity.
Qed.

(** ** What the creations return *)

Lemma book_id_loadBook_ i :
  preserves (fun b => book_id b = i) (loadBook_ svc normalizeName).
Proof.
  intros s H.
  destruct (fst (BookService_loadBookWrapped svc (book_id (book s)) (world s)))
    as [w|e] eqn:E.
  - destruct (loadBook__loads s w E) as (b & -> & _ & _ & Hid & _).
    cbn [final after_call book]. rewrite Hid. exact H.
  - rewrite (loadBook__fails s e E). exact H.
Qed.

Lemma Forall_bound_accounts self (l : list Account) :
  Forall (fun a => acc_book a = Some self) (map (bind_Account self) l).
Proof. apply List.Forall_forall. intros a Ha. apply in_map_iff in Ha.
       destruct Ha as (x & <- & _). reflexivity. Qed.

Lemma Forall_bound_groups self (l : list Group) :
  Forall (fun g => grp_book g = Some self) (map (bind_Group self) l).
Proof. apply List.Forall_forall. intros a Ha. apply in_map_iff in Ha.
       destruct Ha as (x & <- & _). reflexivity. Qed.

Lemma send_accounts_bound p (s : State W) r s' :
  send_accounts svc p s = Returned r s' ->
  Forall (fun a => acc_book a = Some (book_id (book s))) r.
Proof.
  unfold send_accounts. destruct (0 <? List.length p)%nat.
  - intros H. returned_only H. apply Forall_bound_accounts.
  - intros H. injection H as <- <-. constructor.
Qed.

Lemma send_groups_bound ne p (s : State W) r s' :
  send_groups svc ne p s = Returned r s' ->
  Forall (fun g => grp_book g = Some (book_id (book s))) r.
Proof.
  unfold send_groups. destruct ne.
  - intros H. returned_only H. apply Forall_bound_groups.
  - intros H. injection H as <- <-. constructor.
Qed.

(** X14.  Whatever a creation returns is bound to this book: every
    transaction returned by [batchCreateTransactions], every account
    returned by [batchCreateAccounts] and [createAccounts], every group
    returned by [batchCreateGroups] and [createGroups], and the transaction
    returned by [getTransaction], carries the id of the book it was asked
    from as its [book]. *)
Theorem created_entities_are_bound :
  forall s : State W,
    (forall l r s', batchCreateTransactions svc l s = Returned r s' ->
                    Forall (fun t => tx_book t = Some (book_id (book s))) r) /\
    (forall l r s', batchCreateAccounts svc l s = Returned r s' ->
                    Forall (fun a => acc_book a = Some (book_id (book s))) r) /\
    (forall rows r s', createAccounts svc normalizeName rows s = Returned r s' ->
                       Forall (fun a => acc_book a = Some (book_id (book s))) r) /\
    (forall l r s', batchCreateGroups svc l s = Returned r s' ->
                    Forall (fun g => grp_book g = Some (book_id (book s))) r) /\
    (forall names r s', createGroups svc names s = Returned r s' ->
                        Forall (fun g => grp_book g = Some (book_id (book s))) r) /\
    (forall id t s', getTransaction svc id s = Returned t s' ->
                     tx_book t = Some (book_id (book s))).
Proof.
  intros s. split; [|split; [|split; [|split; [|split]]]].
  - intros l r s' H. unfold batchCreateTransactions in H. returned_only H.
    apply List.Forall_forall. intros t Ht. unfold configureTransactions_ in Ht.
    apply in_map_iff in Ht. destruct Ht as (x & <- & _). reflexivity.
  - intros l r s' H. apply (send_accounts_bound _ _ _ _ H).
  - intros rows r s' H. unfold createAccounts in H. unfold bind at 1 in H.
    pose proof (preserves_createAccounts_rows (fun b => book_id b = book_id (book s))
                  (book_id_loadBook_ (book_id (book s))) rows [] s eq_refl) as Hid.
    destruct (createAccounts_rows svc normalizeName rows [] s) as [p s1|e s1];
      [|discriminate].
    cbn [final] in Hid. rewrite <- Hid. apply (send_accounts_bound _ _ _ _ H).
  - intros l r s' H. apply (send_groups_bound _ _ _ _ _ H).
  - intros names r s' H. apply (send_groups_bound _ _ _ _ _ H).
  - intros id t s' H. unfold getTransaction in H. returned_only H. reflexivity.
Qed.

(** ** The collection wrapper *)

Lemma collection_loadBook_ c :
  preserves (fun b => collection b = Some c) (loadBook_ svc normalizeName).
Proof.
  intros s H.
  destruct (fst (BookService_loadBookWrapped svc (book_id (book s)) (world s)))
    as [w|e] eqn:E.
  - destruct (loadBook__loads s w E) as (b & -> & _ & _ & _ & Hc & _).
    cbn [final after_call book]. rewrite Hc. exact H.
  - rewrite (loadBook__fails s e E). exact H.
Qed.

Lemma collection_getCollection c :
  preserves (fun b => collection b = Some c) (getCollection svc normalizeName).
Proof.
  intros s H.
  pose proof (preserves_checkAccountsLoaded_ (fun b => collection b = Some c)
                (collection_loadBook_ c) s H) as Hgate.
  unfold getCollection. unfold bind at 1.
  destruct (checkAccountsLoaded_ svc normalizeName s) as [[] s1|e s1];
    [|exact Hgate].
  cbn [final] in Hgate. unfold wrapped_field, deref. run_steps.
  destruct (wrapped (book s1)) as [w|]; [|exact Hgate].
  cbv beta iota. cbn [book world trace]. rewrite Hgate.
  destruct (bk_collection w); exact Hgate.
Qed.

Ltac kept_collection :=
  repeat first
    [ apply collection_getCollection
    | apply collection_loadBook_
    | apply preserves_ret | apply preserves_throw | apply preserves_this
    | apply preserves_remote | apply preserves_deref
    | apply preserves_void
    | apply preserves_wrapped_field
    | apply preserves_checkBookLoaded_
    | apply preserves_checkAccountsLoaded_
    | apply preserves_getAccount
    | apply preserves_getGroup
    | apply preserves_send_accounts
    | apply preserves_send_groups
    | apply preserves_createAccounts_rows
    | apply preserves_bind; [|intros ?]
    | apply preserves_assign; intros ? Hkept; exact Hkept
    | (intros ? ? Hkept; exact Hkept)
    | pres_case ].

Lemma collection_run c o :
  preserves (fun b => collection b = Some c) (run svc normalizeName o).
Proof.
  destruct o as [a| | | | | | | | | | | | | | | | | | | ]; cbn [run];
    [destruct a; cbn [call_accessor]|..];
    unfold getName, getFractionDigits, getOwnerName, getPermission,
      getDatePattern, getDecimalSeparator, getTimeZone, getTimeZoneOffset,
      getLastUpdateMs, getProperties, getProperty, formatDate_settings,
      formatValue_settings, round_settings, batchCreateTransactions, record,
      record_timeZone, audit, getAccounts, getGroups, batchCreateAccounts,
      createAccounts, batchCreateGroups, createGroups, clearAccountsCache,
      getSavedQueries, getBalancesReport, getTransaction, createAccount,
      clearBookCache_, getId;
    kept_collection.
Qed.

(** X15.  The [Collection] wrapper is built once: [getCollection] creates
    it from the snapshot only while the book holds none, and once the book
    holds one no public method, returning or throwing, replaces or drops it,
    not even a reload that brings a ledger with another collection;
    [getCollection] on a loaded book then returns that same wrapper. *)
Theorem collection_wrapper_is_kept :
  (forall (s s' : State W) c,
      collection (book s) = Some c ->
      reachable svc normalizeName s s' ->
      collection (book s') = Some c) /\
  (forall (s : State W) c,
      collection (book s) = Some c ->
      ready (book s) = true ->
      getCollection svc normalizeName s = Returned (Some c) s) /\
  (forall (s : State W) w pc,
      collection (book s) = None ->
      ready (book s) = true ->
      wrapped (book s) = Some w -> bk_collection w = Some pc ->
      getCollection svc normalizeName s =
        Returned (Some (mk_Collection pc))
          (mk_State (set_collection (Some (mk_Collection pc)) (book s))
                    (world s) (trace s))).
Proof.
  split; [|split].
  - intros s s' c H Hr. induction Hr as [|s1 o Hr IH]; [exact H|].
    apply collection_run. exact IH.
  - intros s c H Hr.
    destruct (ready_fields _ Hr) as (w & im & _ & _ & _ & Hw & Hi & _).
    unfold getCollection, wrapped_field, deref. unfold bind at 1.
    rewrite checkAccountsLoaded__noop by (rewrite ?Hw, ?Hi; reflexivity).
    run_steps. rewrite Hw. cbv beta iota. cbn [book]. rewrite H.
    destruct (bk_collection w); run_steps; rewrite H; reflexivity.
  - intros s w pc H Hr Hw Hpc.
    destruct (ready_fields _ Hr) as (w' & im & _ & _ & _ & Hw' & Hi & _).
    unfold getCollection, wrapped_field, deref. unfold bind at 1.
    rewrite checkAccountsLoaded__noop by (rewrite ?Hw, ?Hi; reflexivity).
    run_steps. rewrite Hw. cbv beta iota. cbn [book]. rewrite H, Hpc.
    reflexivity.
Qed.

(** ** Calls that pass through *)

(** X16.  [audit], [getTransaction] and [getBalancesReport] make exactly
    one remote call and never write the book, whether the call returns or
    fails; [getSavedQueries] never fetches the ledger and writes no field
    but [savedQueries]. *)
Theorem pass_through_calls_leave_cache :
  forall s : State W,
    (book (final (audit svc s)) = book s /\
     trace (final (audit svc s)) = Audit (book_id (book s)) :: trace s) /\
    (forall id,
        book (final (getTransaction svc id s)) = book s /\
        trace (final (getTransaction svc id s)) =
          GetTransaction (book_id (book s)) id :: trace s) /\
    (forall query,
        book (final (getBalancesReport svc query s)) = book s /\
        trace (final (getBalancesReport svc query s)) =
          GetBalances (book_id (book s)) query :: trace s) /\
    ((final (getSavedQueries svc s) = s \/
      trace (final (getSavedQueries svc s)) = GetSavedQueries (book_id (book s)) :: trace s) /\
     (book (final (getSavedQueries svc s)) = book s \/
      exists q, book (final (getSavedQueries svc s)) = set_savedQueries (Some q) (book s))).
Proof.
  intros s. split; [|split; [|split]].
  - unfold audit. run_steps.
    destruct (fst (BookService_audit svc (book s) (world s))); split; reflexivity.
  - intros id. unfold getTransaction. run_steps.
    destruct (fst (TransactionService_getTransaction svc (book_id (book s)) id (world s)));
      split; reflexivity.
  - intros query. unfold getBalancesReport. run_steps.
    destruct (fst (BalancesService_getBalances svc (book_id (book s)) query (world s)));
      split; reflexivity.
  - destruct (getSavedQueries_cases s) as [(q & _ & ->)|[_ H]].
    + split; left; reflexivity.
    + destruct (fst (SavedQueryService_getSavedQueries svc (book_id (book s)) (world s)))
        as [q|e]; rewrite H; cbn [final after_call book trace].
      * split; [right; reflexivity|right; exists q; reflexivity].
      * split; [right; reflexivity|left; reflexivity].
Qed.

End Reasoning.

(** * The claims on the example backend *)

#[local] Existing Instance demo_runtime.

(** ** C1 *)

Lemma transactions_drop_id_indices_witness :
  [demo_tx] <> [] /\
  (exists s',
      batchCreateTransactions demo_ok [demo_tx] demo_loaded =
        Returned [mk_Transaction (tx_wrapped demo_tx) (Some "book-1")] s' /\
      id_indices_dropped (book demo_loaded) (book s') /\
      trace s' = [CreateTransactionsBatch "book-1" [tx_wrapped demo_tx];
                  LoadBookWrapped "book-1"]) /\
  trim_is_empty demo_no_break_space = true /\
  (exists s1,
      record_timeZone demo_ok demo_normalizeName (Some demo_no_break_space) demo_fresh =
        Returned "UTC" s1 /\
      wrapped (book s1) = Some demo_ledger /\ all_present (book s1) = true /\
      trace s1 = [LoadBookWrapped "book-1"]).
Proof.
  destruct (transactions_drop_id_indices demo_ok demo_normalizeName)
    as (H1 & _ & _ & H4).
  split; [discriminate|]. split; [|split; [reflexivity|]].
  - apply (H1 [demo_tx] demo_loaded [tx_wrapped demo_tx]).
    + discriminate.
    + reflexivity.
  - apply (H4 (Some demo_no_break_space) demo_fresh demo_ledger).
    + right. exists demo_no_break_space. split; reflexivity.
    + reflexivity.
    + reflexivity.
Defined.

(** On the loaded demo book a successful [batchCreateTransactions] leaves
    the account name index in place and drops the group id index: it does
    not drop "only the account id and name indices". *)
Lemma transactions_claimed_frame_fails :
  ~ (forall r s',
        batchCreateTransactions demo_ok [demo_tx] demo_loaded = Returned r s' ->
        idAccountMap (book s') = None /\ nameAccountMap (book s') = None /\
        idGroupMap (book s') = idGroupMap (book demo_loaded) /\
        nameGroupMap (book s') = nameGroupMap (book demo_loaded) /\
        accounts (book s') = accounts (book demo_loaded) /\
        groups (book s') = groups (book demo_loaded) /\
        wrapped (book s') = wrapped (book demo_loaded)).
Proof.
  intros H.
  specialize (H _ (final (batchCreateTransactions demo_ok [demo_tx] demo_loaded))
                eq_refl).
  destruct H as (_ & Hname & _). vm_compute in Hname. discriminate Hname.
Qed.

(** ** C2 *)

Lemma batchCreateAccounts_drops_snapshot_witness :
  [demo_new_account] <> [] /\
  exists s',
    batchCreateAccounts demo_ok [demo_new_account] demo_loaded =
      Returned [mk_Account (acc_wrapped demo_new_account) (Some "book-1")] s' /\
    snapshot_dropped (book demo_loaded) (book s') /\
    trace s' = [CreateAccounts "book-1" [acc_wrapped demo_new_account];
                LoadBookWrapped "book-1"].
Proof.
  split; [discriminate|].
  apply (batchCreateAccounts_drops_snapshot demo_ok [demo_new_account] demo_loaded
           [acc_wrapped demo_new_account]).
  - discriminate.
  - reflexivity.
Defined.

(** On the loaded demo book a successful [batchCreateAccounts] drops the
    snapshot and keeps the sequences and the indices: it does not clear the
    collections while "leaving the snapshot in place". *)
Lemma batchCreateAccounts_claimed_effect_fails :
  ~ (forall r s',
        batchCreateAccounts demo_ok [demo_new_account] demo_loaded = Returned r s' ->
        accounts (book s') = None /\ groups (book s') = None /\
        idAccountMap (book s') = None /\ nameAccountMap (book s') = None /\
        idGroupMap (book s') = None /\ nameGroupMap (book s') = None /\
        wrapped (book s') = wrapped (book demo_loaded)).
Proof.
  intros H.
  specialize (H _ (final (batchCreateAccounts demo_ok [demo_new_account] demo_loaded))
                eq_refl).
  destruct H as (Hacc & _). vm_compute in Hacc. discriminate Hacc.
Qed.

(** ** C3 *)

Lemma failed_mutation_keeps_cache_witness :
  batchCreateTransactions demo_mutation_down [demo_tx] demo_loaded =
    Thrown (RemoteFailure "503")
      (after_call demo_loaded (CreateTransactionsBatch "book-1" [tx_wrapped demo_tx])
         (book demo_loaded) 2) /\
  batchCreateAccounts demo_mutation_down [demo_new_account] demo_loaded =
    Thrown (RemoteFailure "503")
      (after_call demo_loaded (CreateAccounts "book-1" [acc_wrapped demo_new_account])
         (book demo_loaded) 2) /\
  batchCreateGroups demo_mutation_down [demo_new_group] demo_loaded =
    Thrown (RemoteFailure "503")
      (after_call demo_loaded (CreateGroups "book-1" [grp_wrapped demo_new_group])
         (book demo_loaded) 2) /\
  createGroups demo_mutation_down ["Taxes"] demo_fresh =
    Thrown (RemoteFailure "503")
      (after_call demo_fresh (CreateGroups "book-1" [named_group "Taxes"])
         (book demo_fresh) 1) /\
  record demo_mutation_down demo_normalizeName (RecordText "gas 63.23") None demo_loaded =
    Thrown (RemoteFailure "503")
      (after_call demo_loaded (RecordDrafts "book-1" (RecordText "gas 63.23") "UTC")
         (book demo_loaded) 2) /\
  record_timeZone demo_mutation_down demo_normalizeName None demo_fresh =
    Returned "UTC" demo_loaded /\
  record demo_mutation_down demo_normalizeName (RecordText "gas 63.23") None demo_fresh =
    Thrown (RemoteFailure "503")
      (after_call demo_loaded (RecordDrafts "book-1" (RecordText "gas 63.23") "UTC")
         (book demo_loaded) 2) /\
  createAccounts demo_mutation_down demo_normalizeName
      [["Savings"; "LIABILITY"; "Fixed Costs"]; ["Cash"]] demo_loaded =
    Thrown (RemoteFailure "503")
      (after_call demo_loaded
         (CreateAccounts "book-1"
            [mk_bkper_Account None (Some "Savings") None (Some "LIABILITY") [Some "g2"]])
         (book demo_loaded) 2).
Proof.
  destruct (failed_mutation_keeps_cache demo_mutation_down demo_normalizeName)
    as (Htx & Hacc & Hgrp & Hnames & Hrec & Hrows).
  assert (record_timeZone demo_mutation_down demo_normalizeName None demo_fresh =
          Returned "UTC" demo_loaded) as Etz by (vm_compute; reflexivity).
  split; [|split; [|split; [|split; [|split; [|split; [exact Etz|split]]]]]].
  - apply (Htx [demo_tx] demo_loaded). reflexivity.
  - apply (Hacc [demo_new_account] demo_loaded); [discriminate|reflexivity].
  - apply (Hgrp [demo_new_group] demo_loaded); [discriminate|reflexivity].
  - apply (Hnames ["Taxes"] demo_fresh); [discriminate|reflexivity].
  - destruct (Hrec (RecordText "gas 63.23") None demo_loaded) as (H & _ & _).
    apply (H "UTC" demo_loaded); reflexivity.
  - destruct (Hrec (RecordText "gas 63.23") None demo_fresh) as (H & _ & _).
    apply (H "UTC" demo_loaded); [exact Etz|reflexivity].
  - destruct (Hrows [["Savings"; "LIABILITY"; "Fixed Costs"]; ["Cash"]] demo_loaded)
      as (H & _).
    apply (H [mk_bkper_Account None (Some "Savings") None (Some "LIABILITY") [Some "g2"]]
             demo_loaded).
    + vm_compute. reflexivity.
    + discriminate.
    + reflexivity.
Defined.

(** ** C4 *)

Lemma cache_shape_invariant_witness :
  reachable demo_ok demo_normalizeName demo_fresh demo_cleared /\
  coherent (book demo_cleared) = true.
Proof.
  assert (reachable demo_ok demo_normalizeName demo_fresh demo_cleared) as Hr.
  { apply reachable_call, reachable_call, reachable_start. }
  split; [exact Hr|].
  destruct (cache_shape_invariant demo_ok demo_normalizeName) as (H & _ & _).
  apply (H "book-1" None 0 demo_cleared). exact Hr.
Defined.

(** After a load and [clearAccountsCache] the sequences and the name indices
    are present and the id indices are absent: the six fields are neither
    all loaded nor all dropped. *)
Lemma collections_not_atomic :
  ~ (forall s,
        reachable demo_ok demo_normalizeName demo_fresh s ->
        all_present (book s) = true \/ all_absent (book s) = true).
Proof.
  intros H.
  assert (reachable demo_ok demo_normalizeName demo_fresh demo_cleared) as Hr.
  { apply reachable_call, reachable_call, reachable_start. }
  destruct (H demo_cleared Hr) as [Hp|Ha].
  - vm_compute in Hp. discriminate Hp.
  - vm_compute in Ha. discriminate Ha.
Qed.

(** ** C5 *)

Lemma first_accessor_fetches_once_witness :
  fst (BookService_loadBookWrapped demo_ok "book-1" 0) = Ok demo_ledger /\
  Forall (fun o => invalidates o = false) demo_reads /\
  ready (book (final (call_accessor demo_ok demo_normalizeName Get_name demo_fresh)))
    = true /\
  fetches (run_all demo_ok demo_normalizeName demo_reads
             (final (call_accessor demo_ok demo_normalizeName Get_name demo_fresh))) = 1.
Proof.
  assert (Forall (fun o => invalidates o = false) demo_reads) as Hreads.
  { repeat constructor. }
  split; [reflexivity|]. split; [exact Hreads|].
  destruct (first_accessor_fetches_once demo_ok demo_normalizeName "book-1" 0 Get_name)
    as (_ & _ & H).
  destruct (H demo_ledger eq_refl) as [Hr Hf].
  split; [exact Hr|]. apply (Hf demo_reads Hreads).
Defined.

(** When the first fetch fails the book stays unloaded, and the second
    accessor call fetches again.  And on the loaded book, with no mutation
    in between, [getCollection] fetches again after [clearAccountsCache]. *)
Lemma second_accessor_refetches_after_failure :
  fetches demo_failed_once = 1 /\
  ~ (forall a,
        fetches (final (call_accessor demo_ledger_down demo_normalizeName a
                          demo_failed_once))
        = fetches demo_failed_once) /\
  fetches (final (call_accessor demo_ok demo_normalizeName Get_name demo_fresh)) = 1 /\
  fetches (run_all demo_ok demo_normalizeName
             [Call_clearAccountsCache; Call_accessor Get_collection]
             (final (call_accessor demo_ok demo_normalizeName Get_name demo_fresh))) = 2.
Proof.
  split; [reflexivity|]. split; [|split; reflexivity].
  intros H. specialize (H Get_name). vm_compute in H. discriminate H.
Qed.

(** ** C6 *)

Lemma lookup_finds_inherited_members_witness :
  getAccount demo_ok demo_normalizeName (Some "toString") demo_loaded =
    Returned (Some (Inherited "toString")) demo_loaded /\
  getGroup demo_ok demo_normalizeName (Some "constructor") demo_loaded =
    Returned (Some (Inherited "constructor")) demo_loaded /\
  getAccount demo_ok demo_normalizeName (Some "Constructor") demo_loaded =
    Returned (Some (Inherited "constructor")) demo_loaded /\
  getAccount demo_ok demo_normalizeName (Some "CASH") demo_loaded =
    Returned (Some (Own (mk_Account (demo_account "a2" "Cash") (Some "book-1"))))
             demo_loaded /\
  getAccount demo_ok demo_normalizeName (Some "Petty Cash") demo_loaded =
    Returned None demo_loaded.
Proof.
  assert (idAccountMap (book demo_loaded) =
            Some (index_by account_id_key (fetched_accounts "book-1" demo_ledger) ∅) /\
          nameAccountMap (book demo_loaded) =
            Some (index_by account_name_key (fetched_accounts "book-1" demo_ledger) ∅) /\
          idGroupMap (book demo_loaded) =
            Some (index_by group_id_key (fetched_groups "book-1" demo_ledger) ∅) /\
          nameGroupMap (book demo_loaded) =
            Some (index_by (fun g => demo_normalizeName (Group_getName g))
                    (fetched_groups "book-1" demo_ledger) ∅))
    as (Hi & Hn & Hgi & Hgn).
  { vm_compute. repeat split. }
  pose proof (fun key =>
                lookup_finds_inherited_members demo_ok demo_normalizeName key
                  demo_loaded _ _ _ _ eq_refl Hi Hn Hgi Hgn) as H.
  split; [|split; [|split; [|split]]].
  - destruct (H "toString") as (H1 & _). destruct (H1 eq_refl) as [Ha _].
    apply Ha. vm_compute. reflexivity.
  - destruct (H "constructor") as (H1 & _). destruct (H1 eq_refl) as [_ Hg].
    apply Hg. vm_compute. reflexivity.
  - destruct (H "Constructor") as (_ & H2 & _). destruct (H2 eq_refl eq_refl) as [Ha _].
    apply Ha; vm_compute; reflexivity.
  - destruct (H "CASH") as (_ & _ & H3). destruct (H3 eq_refl eq_refl) as [Ha _].
    rewrite Ha. vm_compute. reflexivity.
  - destruct (H "Petty Cash") as (_ & _ & H3). destruct (H3 eq_refl eq_refl) as [Ha _].
    rewrite Ha. vm_compute. reflexivity.
Defined.

(** ** C9 *)

Lemma name_index_last_write_wins_witness :
  exists s' im nm,
    configureAccounts_ (bk_accounts demo_ledger) demo_fresh = Returned tt s' /\
    idAccountMap (book s') = Some im /\ nameAccountMap (book s') = Some nm /\
    nm !! "bankaccount"
      = Some (mk_Account (demo_account "a3" "bank account") (Some "book-1")) /\
    forall x, In x (bk_accounts demo_ledger) ->
      im !! property_key (acc_id x) = Some (mk_Account x (Some "book-1")).
Proof.
  destruct (name_index_last_write_wins (W:=nat) demo_normalizeName) as [H _].
  apply (H demo_fresh [] (demo_account "a1" "Bank Account")
           [demo_account "a2" "Cash"] (demo_account "a3" "bank account") []).
  - reflexivity.
  - intros x [].
  - apply (bool_decide_unpack _). vm_compute. reflexivity.
Defined.

(** ** C10 *)

Lemma savedQueries_cached_for_good_witness :
  savedQueries (book demo_queried) = Some [mk_bkper_Query "q1" "account:Cash" "Cash"] /\
  reachable demo_ok demo_normalizeName demo_queried demo_queried_later /\
  savedQueries (book demo_queried_later)
    = Some [mk_bkper_Query "q1" "account:Cash" "Cash"].
Proof.
  assert (reachable demo_ok demo_normalizeName demo_queried demo_queried_later) as Hr.
  { apply reachable_call, reachable_call, reachable_start. }
  split; [reflexivity|]. split; [exact Hr|].
  destruct (savedQueries_cached_for_good demo_ok demo_normalizeName) as (_ & H & _).
  apply (H demo_queried demo_queried_later); [reflexivity|exact Hr].
Defined.

(** When the first fetch of the saved queries fails nothing is cached, and
    the second call on the same book makes a second remote call. *)
Lemma savedQueries_refetched_after_failure :
  trace demo_query_failed_once = [GetSavedQueries "book-1"] /\
  ~ (trace (final (getSavedQueries demo_queries_down demo_query_failed_once))
     = trace demo_query_failed_once).
Proof.
  split; [reflexivity|]. intros H. vm_compute in H. discriminate H.
Qed.

(** * The further properties on the example backend *)

Lemma open_gate_reads_fetched_ledger_witness :
  gate_open (book demo_cleared) = true /\
  exists s1,
    trace s1 = [LoadBookWrapped "book-1"; LoadBookWrapped "book-1"] /\
    wrapped (book s1) = Some demo_ledger /\
    getAccounts demo_ok demo_normalizeName demo_cleared =
      Returned (Some (fetched_accounts "book-1" demo_ledger)) s1 /\
    getGroups demo_ok demo_normalizeName demo_cleared =
      Returned (Some (fetched_groups "book-1" demo_ledger)) s1 /\
    getAccount demo_ok demo_normalizeName (Some "a2") demo_cleared =
      Returned (lookup_in
                  (index_by account_id_key (fetched_accounts "book-1" demo_ledger) ∅)
                  (index_by account_name_key (fetched_accounts "book-1" demo_ledger) ∅)
                  demo_normalizeName "a2") s1 /\
    getGroup demo_ok demo_normalizeName (Some "a2") demo_cleared =
      Returned (lookup_in
                  (index_by group_id_key (fetched_groups "book-1" demo_ledger) ∅)
                  (index_by (fun g => demo_normalizeName (Group_getName g))
                     (fetched_groups "book-1" demo_ledger) ∅)
                  demo_normalizeName "a2") s1.
Proof.
  split; [reflexivity|].
  apply (open_gate_reads_fetched_ledger demo_ok demo_normalizeName demo_cleared
           demo_ledger "a2"); reflexivity.
Defined.

Lemma returned_mutation_opens_gate_witness :
  batchCreateTransactions demo_ok [demo_tx] demo_loaded =
    Returned [mk_Transaction (tx_wrapped demo_tx) (Some "book-1")]
             (final (batchCreateTransactions demo_ok [demo_tx] demo_loaded)) /\
  gate_open (book (final (batchCreateTransactions demo_ok [demo_tx] demo_loaded))) = true.
Proof.
  assert (batchCreateTransactions demo_ok [demo_tx] demo_loaded =
          Returned [mk_Transaction (tx_wrapped demo_tx) (Some "book-1")]
                   (final (batchCreateTransactions demo_ok [demo_tx] demo_loaded)))
    as E by reflexivity.
  split; [exact E|].
  destruct (returned_mutation_opens_gate demo_ok demo_normalizeName) as [H _].
  apply (H [demo_tx] demo_loaded _ _ E).
Defined.

Lemma snapshot_accessors_need_only_snapshot_witness :
  Get_timeZone <> Get_collection /\
  isSome (wrapped (book demo_cleared)) = true /\
  call_accessor demo_ok demo_normalizeName Get_timeZone demo_cleared =
    Returned tt demo_cleared.
Proof.
  split; [discriminate|]. split; [reflexivity|].
  destruct (snapshot_accessors_need_only_snapshot demo_ok demo_normalizeName) as [H _].
  destruct (H Get_timeZone demo_cleared ltac:(discriminate) eq_refl) as [_ Hret].
  apply Hret. discriminate.
Defined.

Lemma reads_after_a_read_are_cached_witness :
  getAccounts demo_ok demo_normalizeName demo_fresh =
    Returned (accounts (book demo_loaded)) demo_loaded /\
  ready (book demo_loaded) = true /\
  getAccounts demo_ok demo_normalizeName demo_loaded =
    Returned (accounts (book demo_loaded)) demo_loaded /\
  getGroups demo_ok demo_normalizeName demo_loaded =
    Returned (groups (book demo_loaded)) demo_loaded.
Proof.
  assert (getAccounts demo_ok demo_normalizeName demo_fresh =
          Returned (accounts (book demo_loaded)) demo_loaded) as E
    by (vm_compute; reflexivity).
  split; [exact E|].
  destruct (reads_after_a_read_are_cached demo_ok demo_normalizeName
              "book-1" None 0 demo_fresh demo_loaded (accounts (book demo_loaded))
              (reachable_start _ _ _) (or_introl E))
    as (Hr & Ha & Hg & _).
  auto.
Defined.

Lemma fetched_entities_are_found_witness :
  gate_open (book demo_fresh) = true /\
  exists s1,
    getAccounts demo_ok demo_normalizeName demo_fresh =
      Returned (Some (fetched_accounts "book-1" demo_ledger)) s1 /\
    getAccount demo_ok demo_normalizeName (Some "a2") s1 =
      Returned (Some (Own (mk_Account (demo_account "a2" "Cash") (Some "book-1")))) s1 /\
    getGroup demo_ok demo_normalizeName (Some "g1") s1 =
      Returned (Some (Own (mk_Group (mk_bkper_Group (Some "g1") "Fixed Costs")
                                    (Some "book-1")))) s1.
Proof.
  split; [reflexivity|].
  destruct (fetched_entities_are_found demo_ok demo_normalizeName demo_fresh
              demo_ledger eq_refl eq_refl eq_refl)
    as (s1 & Ea & Hid & _ & Hgid & _).
  exists s1. split; [exact Ea|]. split.
  - apply (Hid ltac:(apply (bool_decide_unpack _); vm_compute; exact I)
               (demo_account "a2" "Cash")).
    right. left. reflexivity.
  - apply (Hgid ltac:(apply (bool_decide_unpack _); vm_compute; exact I)
                (mk_bkper_Group (Some "g1") "Fixed Costs")).
    left. reflexivity.
Defined.

Lemma lookup_returns_indexed_entity_witness :
  own_keys_backend demo_ok demo_normalizeName /\
  getAccount demo_ok demo_normalizeName (Some "CASH") demo_fresh =
    Returned (Some (Own (mk_Account (demo_account "a2" "Cash") (Some "book-1"))))
             demo_loaded /\
  (account_id_key (mk_Account (demo_account "a2" "Cash") (Some "book-1")) = "CASH" \/
   account_name_key (mk_Account (demo_account "a2" "Cash") (Some "book-1"))
     = demo_normalizeName "CASH") /\
  acc_book (mk_Account (demo_account "a2" "Cash") (Some "book-1")) = Some "book-1" /\
  exists l, accounts (book demo_loaded) = Some l /\
            In (mk_Account (demo_account "a2" "Cash") (Some "book-1")) l.
Proof.
  assert (own_keys_backend demo_ok demo_normalizeName) as Hown.
  { intros id backend w H. vm_compute in H. injection H as <-. reflexivity. }
  assert (getAccount demo_ok demo_normalizeName (Some "CASH") demo_fresh =
          Returned (Some (Own (mk_Account (demo_account "a2" "Cash") (Some "book-1"))))
                   demo_loaded) as E by (vm_compute; reflexivity).
  split; [exact Hown|]. split; [exact E|].
  destruct (lookup_returns_indexed_entity demo_ok demo_normalizeName
              "book-1" None 0 demo_fresh "CASH" Hown (reachable_start _ _ _)) as [H _].
  apply (H _ _ E).
Defined.

Lemma lookup_throws_only_the_fetch_error_witness :
  getGroup demo_ledger_down demo_normalizeName (Some "g1") demo_fresh =
    Thrown (RemoteFailure "503")
           (final (getGroup demo_ledger_down demo_normalizeName (Some "g1") demo_fresh)) /\
  gate_open (book demo_fresh) = true /\
  fst (BookService_loadBookWrapped demo_ledger_down (book_id (book demo_fresh))
         (world demo_fresh)) = Fail (RemoteFailure "503") /\
  book (final (getGroup demo_ledger_down demo_normalizeName (Some "g1") demo_fresh))
    = book demo_fresh /\
  trace (final (getGroup demo_ledger_down demo_normalizeName (Some "g1") demo_fresh))
    = LoadBookWrapped (book_id (book demo_fresh)) :: trace demo_fresh.
Proof.
  assert (getGroup demo_ledger_down demo_normalizeName (Some "g1") demo_fresh =
          Thrown (RemoteFailure "503")
            (final (getGroup demo_ledger_down demo_normalizeName (Some "g1") demo_fresh)))
    as E by reflexivity.
  split; [exact E|].
  apply (lookup_throws_only_the_fetch_error demo_ledger_down demo_normalizeName
           "book-1" None 0 demo_fresh _ "g1" _ (reachable_start _ _ _) (or_intror E)).
Defined.

Lemma getProperty_first_usable_witness :
  wrapped (book demo_with_properties) = Some demo_ledger_with_properties /\
  property_read (bk_properties demo_ledger_with_properties) "symbol" = Skipped /\
  getProperty demo_ok demo_normalizeName ["symbol"; "currency"; "code"]
              demo_with_properties = Returned (Some "USD") demo_with_properties /\
  getProperty demo_ok demo_normalizeName ["currency"; "constructor"; "code"]
              demo_with_properties =
    Thrown (TypeError "value.trim is not a function") demo_with_properties /\
  getProperty demo_ok demo_normalizeName ["currency"; "rate"]
              demo_with_properties = Returned None demo_with_properties.
Proof.
  split; [reflexivity|]. split; [reflexivity|].
  split; [|split].
  - destruct (getProperty_first_usable demo_ok demo_normalizeName demo_with_properties
                demo_ledger_with_properties ["symbol"; "currency"; "code"] eq_refl)
      as (H & _).
    apply (H ["symbol"; "currency"] "code" [] "USD").
    + reflexivity.
    + intros k [<-|[<-|[]]]; reflexivity.
    + reflexivity.
  - destruct (getProperty_first_usable demo_ok demo_normalizeName demo_with_properties
                demo_ledger_with_properties ["currency"; "constructor"; "code"] eq_refl)
      as (_ & H & _).
    apply (H ["currency"] "constructor" ["code"]).
    + reflexivity.
    + intros k [<-|[]]; reflexivity.
    + reflexivity.
  - destruct (getProperty_first_usable demo_ok demo_normalizeName demo_with_properties
                demo_ledger_with_properties ["currency"; "rate"] eq_refl)
      as (_ & _ & H).
    apply H. intros k [<-|[<-|[]]]; reflexivity.
Defined.



Lemma createAccount_answers_from_refetched_ledger_witness :
  exists s1,
    createAccount demo_ok demo_normalizeName "Cash" None None demo_loaded =
      Returned (lookup_in
                  (index_by account_id_key (fetched_accounts "book-1" demo_ledger) ∅)
                  (index_by account_name_key (fetched_accounts "book-1" demo_ledger) ∅)
                  demo_normalizeName "Cash") s1 /\
    wrapped (book s1) = Some demo_ledger /\
    trace s1 = [LoadBookWrapped "book-1"; CreateAccountV2 "book-1" "Cash" None None;
                LoadBookWrapped "book-1"].
Proof.
  destruct (createAccount_answers_from_refetched_ledger demo_ok demo_normalizeName
              demo_loaded "Cash" None None) as [_ H].
  apply (H (demo_account "a9" "Cash") demo_ledger); reflexivity.
Defined.

Lemma empty_inputs_witness :
  batchCreateTransactions demo_ok [] demo_loaded =
    Returned [] (final (batchCreateTransactions demo_ok [] demo_loaded)) /\
  idAccountMap (book (final (batchCreateTransactions demo_ok [] demo_loaded))) = None /\
  idGroupMap (book (final (batchCreateTransactions demo_ok [] demo_loaded))) = None.
Proof.
  assert (batchCreateTransactions demo_ok [] demo_loaded =
          Returned [] (final (batchCreateTransactions demo_ok [] demo_loaded)))
    as E by reflexivity.
  split; [exact E|].
  destruct (empty_inputs demo_ok demo_normalizeName demo_loaded) as (_ & _ & _ & H).
  apply (H _ _ E).
Defined.

Lemma record_time_zone_witness :
  trim_is_empty "America/Santiago" = false /\
  trim_is_empty demo_no_break_space = true /\
  trace (final (record demo_ok demo_normalizeName (RecordText "gas 63.23")
                  (Some "America/Santiago") demo_fresh)) =
    [RecordDrafts "book-1" (RecordText "gas 63.23") "America/Santiago"] /\
  trace (final (record demo_ok demo_normalizeName (RecordText "gas 63.23")
                  (Some demo_no_break_space) demo_fresh)) =
    [RecordDrafts "book-1" (RecordText "gas 63.23") "UTC"; LoadBookWrapped "book-1"].
Proof.
  destruct (record_time_zone demo_ok demo_normalizeName) as (H1 & _ & H3 & _).
  split; [reflexivity|]. split; [reflexivity|]. split.
  - apply (H1 (RecordText "gas 63.23") "America/Santiago" demo_fresh). reflexivity.
  - apply (H3 (RecordText "gas 63.23") (Some demo_no_break_space) demo_fresh demo_ledger).
    + right. exists demo_no_break_space. split; reflexivity.
    + reflexivity.
    + reflexivity.
Defined.

Lemma created_entities_are_bound_witness :
  batchCreateGroups demo_ok [demo_new_group] demo_loaded =
    Returned [mk_Group (grp_wrapped demo_new_group) (Some "book-1")]
             (final (batchCreateGroups demo_ok [demo_new_group] demo_loaded)) /\
  Forall (fun g => grp_book g = Some "book-1")
         [mk_Group (grp_wrapped demo_new_group) (Some "book-1")].
Proof.
  assert (batchCreateGroups demo_ok [demo_new_group] demo_loaded =
          Returned [mk_Group (grp_wrapped demo_new_group) (Some "book-1")]
                   (final (batchCreateGroups demo_ok [demo_new_group] demo_loaded)))
    as E by reflexivity.
  split; [exact E|].
  destruct (created_entities_are_bound demo_ok demo_normalizeName demo_loaded)
    as (_ & _ & _ & H & _).
  apply (H _ _ _ E).
Defined.

Lemma collection_wrapper_is_kept_witness :
  collection (book demo_collected) = Some demo_collection /\
  reachable demo_ok demo_normalizeName demo_collected demo_collected_later /\
  collection (book demo_collected_later) = Some demo_collection /\
  trace demo_collected_later =
    [LoadBookWrapped "book-1"; CreateAccounts "book-1" [acc_wrapped demo_new_account];
     LoadBookWrapped "book-1"].
Proof.
  assert (reachable demo_ok demo_normalizeName demo_collected demo_collected_later)
    as Hr.
  { apply reachable_call, reachable_call, reachable_start. }
  split; [reflexivity|]. split; [exact Hr|]. split; [|reflexivity].
  destruct (collection_wrapper_is_kept demo_ok demo_normalizeName) as (H & _).
  apply (H demo_collected demo_collected_later demo_collection eq_refl Hr).
Defined.
